(** * Kint: middleware composition and route-tree construction

    A shallow embedding of [src/core/Kint.ts] and [src/RouteTreeNode.ts].

    - JavaScript values are an inductive type; objects used as maps are
      [gmap string JsValue].  The context object of a request lives on a
      heap, with its own properties and its prototype.
    - Code with effects (writes to the per-request context object, writes to
      the Express request and response, thrown errors) runs in a small
      state-and-exception monad [Eff].
    - Helpers and libraries the two files import but which are not part of the
      sources at hand (the schema library, [extendObject], ...) are the
      fields of type classes; the development is parametric in them.  So is
      the module loader behind [require]; the file system is a tree of
      directory entries. *)

From stdpp Require Import gmap strings list fin_maps.
From Stdlib Require Import ZArith Lia Ascii.

Set Warnings "-register-all".

(* ===================================================================== *)
(** * JavaScript values                                                   *)
(* ===================================================================== *)

(** Values as the two files handle them: primitives and plain objects.
    Numbers are integers here; the code never computes with them, it only
    tests them for truthiness and stores them. *)
Inductive JsValue : Type :=
| VUndefined
| VNull
| VBool (b : bool)
| VNum (n : Z)
| VStr (s : string)
| VObj (fields : gmap string JsValue).

(** A plain object seen as a map from property names to values. *)
Abbreviation JsObject := (gmap string JsValue).

(** [ToBoolean]: what [if (v)] tests. *)
Definition truthy (v : JsValue) : bool :=
  match v with
  | VUndefined | VNull => false
  | VBool b => b
  | VNum n => negb (n =? 0)%Z
  | VStr s => negb (String.eqb s "")
  | VObj _ => true
  end.

(** What reading a property of a plain object gives: a value, or one of the
    members every plain object inherits from [Object.prototype] (functions,
    and for ["__proto__"] the prototype itself), which are not values of
    [JsValue]. *)
Inductive PropertyValue : Type :=
| Data (value : JsValue)
| Inherited (member : string).

(** The property names of [Object.prototype]. *)
Definition objectPrototypeMembers : list string :=
  [ "constructor"; "hasOwnProperty"; "isPrototypeOf"; "propertyIsEnumerable";
    "toLocaleString"; "toString"; "valueOf"; "__defineGetter__";
    "__defineSetter__"; "__lookupGetter__"; "__lookupSetter__"; "__proto__" ].

(** [o[k]] on a plain object with own properties [o]: the own property if
    there is one, else what [Object.prototype] has under that name, else
    [undefined]. *)
Definition getProp (o : JsObject) (k : string) : PropertyValue :=
  match o !! k with
  | Some v => Data v
  | None =>
      if bool_decide (k ∈ objectPrototypeMembers) then Inherited k
      else Data VUndefined
  end.

(** [v === true]. *)
Definition strictlyTrue (v : JsValue) : bool :=
  match v with
  | VBool true => true
  | _ => false
  end.

(** Thrown values: [new Error(msg)] and the engine's [TypeError]. *)
Inductive JsError : Type :=
| Error (message : string)
| TypeError (message : string).

(* ===================================================================== *)
(** * The effect monad                                                    *)
(* ===================================================================== *)

(** How a call ends: it returns a value or it throws. *)
Inductive completion (A : Type) : Type :=
| Normal (a : A)
| Throw (e : JsError).
Arguments Normal {A} a.
Arguments Throw {A} e.

(** A computation over a mutable store [S]. *)
Definition Eff (S A : Type) : Type := S -> S * completion A.

Definition ret {S A : Type} (a : A) : Eff S A :=
  fun s => (s, Normal a).

Definition bind {S A B : Type} (c : Eff S A) (k : A -> Eff S B) : Eff S B :=
  fun s =>
    match c s with
    | (s', Normal a) => k a s'
    | (s', Throw e) => (s', Throw e)
    end.

Definition throw {S A : Type} (e : JsError) : Eff S A :=
  fun s => (s, Throw e).

Definition gets {S A : Type} (f : S -> A) : Eff S A :=
  fun s => (s, Normal (f s)).

Definition modify {S : Type} (f : S -> S) : Eff S unit :=
  fun s => (f s, Normal tt).

Declare Scope eff_scope.
Delimit Scope eff_scope with eff.
Notation "'let*' x ':=' c1 'in' c2" := (bind c1 (fun x => c2))
  (at level 10, x binder, c1 at level 100, c2 at level 200) : eff_scope.
Notation "c1 ';;' c2" := (bind c1 (fun _ => c2))
  (at level 100, c2 at level 200, right associativity) : eff_scope.
Open Scope eff_scope.

(** [for (const x of xs) body(x)]. *)
Definition forEach {S A : Type} (body : A -> Eff S unit) : list A -> Eff S unit :=
  fix loop (xs : list A) : Eff S unit :=
    match xs with
    | [] => ret tt
    | x :: rest => body x ;; loop rest
    end.

(* ===================================================================== *)
(** * src/core/Kint.ts                                                    *)
(* ===================================================================== *)

(** References to heap objects. *)
Abbreviation loc := positive.

(** The prototype of an object on the heap: [Object.prototype], as for every
    object literal; a plain object put there by an assignment to
    ["__proto__"]; or none. *)
Inductive Prototype : Type :=
| ObjectPrototype
| PlainPrototype (fields : JsObject)
| NullPrototype.

(** An extensible object on the heap: its own properties, all of them
    writable data properties, and its prototype. *)
Record HeapObject : Type := mkHeapObject {
  own : JsObject;
  prototype : Prototype
}.

(** The object an object literal with the properties [o] creates. *)
Definition ordinary (o : JsObject) : HeapObject :=
  mkHeapObject o ObjectPrototype.

(** What a request can observe while a compiled handler runs: the objects
    reachable from it (the context object among them) and a log of the
    labels user code chose to emit. *)
Record ReqState : Type := mkReqState {
  heap : gmap loc HeapObject;
  trace : list string
}.

(** An observation available to user code, in the manner of [console.log]. *)
Definition emit (label : string) : Eff ReqState unit :=
  modify (fun s => mkReqState (heap s) (trace s ++ [label])).

(** The setter of the accessor [Object.prototype.__proto__], called on [o]
    with [v]: an object or [null] becomes the prototype of [o], any other
    value is ignored. *)
Definition setPrototype (v : JsValue) (o : HeapObject) : HeapObject :=
  match v with
  | VObj fields => mkHeapObject (own o) (PlainPrototype fields)
  | VNull => mkHeapObject (own o) NullPrototype
  | _ => o
  end.

(** The assignment [o[k] = v].  The property is looked up on [o] and then
    along its prototypes.  A data property, or no property at all, makes [k]
    an own property of [o] with value [v]; an accessor has its setter called
    instead.  The only accessor there is to find is ["__proto__"] on
    [Object.prototype], which a plain prototype inherits as well. *)
Definition assign (k : string) (v : JsValue) (o : HeapObject) : HeapObject :=
  let define := mkHeapObject (<[k := v]> (own o)) (prototype o) in
  if bool_decide (k = "__proto__") then
    match own o !! k, prototype o with
    | Some _, _ => define
    | None, NullPrototype => define
    | None, PlainPrototype fields =>
        match fields !! k with
        | Some _ => define
        | None => setPrototype v o
        end
    | None, ObjectPrototype => setPrototype v o
    end
  else define.

(** The read [o[k]]: an own property, or what the prototype gives.  The
    getter of ["__proto__"] answers the prototype of [o]. *)
Definition readProp (o : HeapObject) (k : string) : PropertyValue :=
  match own o !! k with
  | Some v => Data v
  | None =>
      match prototype o with
      | ObjectPrototype => getProp ∅ k
      | PlainPrototype fields =>
          match fields !! k with
          | Some v => Data v
          | None =>
              if bool_decide (k = "__proto__") then Data (VObj fields)
              else getProp ∅ k
          end
      | NullPrototype => Data VUndefined
      end
  end.

(** [obj[k] = v] on the object at [l]. *)
Definition setProp (l : loc) (k : string) (v : JsValue) : Eff ReqState unit :=
  modify (fun s => mkReqState (alter (assign k v) l (heap s)) (trace s)).

(** Modelled from the spec: [mergeDefaultWithMissingItems]
    (src/utils/mergeDefaultWithMissingItems) is not among the sources.  The
    spec describes its result as "a per-endpoint mergedConfig produced by
    deep-merging endpoint-supplied values onto the default, filling only keys
    absent from the endpoint's override (never overwriting an explicit
    endpoint value)".  [mergeValue] is the merge of two values found under the
    same key: two objects are merged key by key, anything else is the
    override's value. *)
Fixpoint mergeValue (defaultValue override : JsValue) {struct override} : JsValue :=
  match defaultValue, override with
  | VObj defaults, VObj overrides =>
      VObj (union_with (fun o d => Some (mergeValue d o)) overrides defaults)
  | _, _ => override
  end.

Definition mergeDefaultWithMissingItems
    (defaultObject objectMissingItems : JsObject) : JsObject :=
  union_with (fun o d => Some (mergeValue d o)) objectMissingItems defaultObject.

(** How deeply objects are nested in a value: the measure for induction on
    values. *)
Fixpoint nesting (v : JsValue) : nat :=
  match v with
  | VObj fields =>
      S (map_fold (fun _ x deepest => Nat.max (nesting x) deepest) 0 fields)
  | _ => 0
  end.

(** The argument of [setConfig]: a function of the current default config, or
    a config. *)
Inductive FnOrValue : Type :=
| IsFn (fn : JsObject -> JsObject)
| IsValue (value : JsObject).

(** Modelled from the spec: [getFromFnOrValue] (src/utils/getFromFnOrValue) is
    not among the sources.  The spec: "setConfig accepts either a literal
    override or a function of the current default config, producing a new
    chain with the resolved default". *)
Definition getFromFnOrValue (fnOrValue : FnOrValue) (arg : JsObject) : JsObject :=
  match fnOrValue with
  | IsFn fn => fn arg
  | IsValue value => value
  end.

Module Core.

(** Types and helpers [Kint.ts] imports from modules that are not among the
    sources: the request and response models, the raw endpoint handler and
    validator types, the argument tuple of [defineEndpoint], and
    [extendObject], which builds the extended config object from the default
    config and the extension. *)
Class Imports : Type := {
  KintRequest : Type;
  KintResponse : Type;
  RawHandler : Type;
  ValidatorArray : Type;
  DefineEndpointFunctionArgs : Type;
  extendObject : JsObject -> JsObject -> JsObject
}.

Section Definitions.
Context {imports : Imports}.

(** [ConfigurableHandler<Context, Config>]: the context is passed by
    reference; the config is only read, it is given by the own properties of
    a plain object. *)
Definition ConfigurableHandler : Type :=
  KintRequest -> loc -> JsObject -> Eff ReqState KintResponse.

(** [HandlerBuilder<Context, Config>]. *)
Record HandlerBuilder : Type := mkHandlerBuilder {
  buildConfigurableHandler : ConfigurableHandler -> ConfigurableHandler
}.

(** [MaybeFunction<ContextExt>]: [next()] is [None], [next(v)] is [Some v]. *)
Definition MaybeFunction : Type := option JsValue -> Eff ReqState KintResponse.

(** [Middleware<Name, ContextExt, ConfigExt>]. *)
Record Middleware : Type := mkMiddleware {
  name : string;
  handler :
    KintRequest -> MaybeFunction -> PropertyValue -> Eff ReqState KintResponse
}.

(** The two private fields of a [Kint] instance. *)
Record Kint : Type := mkKint {
  defaultConfig : JsObject;
  handlerBuilder : HandlerBuilder
}.

(** [Kint.new]. *)
Definition Kint_new : Kint :=
  mkKint ∅ (mkHandlerBuilder (fun innerHandler => innerHandler)).

(** [extendConfig]. *)
Definition extendConfig (this : Kint) (extension : JsObject) : Kint :=
  mkKint (extendObject (defaultConfig this) extension) (handlerBuilder this).

(** The arrow function handed to [middleware.handler] as [next]
    (Kint.ts, lines 130-135).  [extension] is [undefined] when [next] is
    called without an argument. *)
Definition nextFn (middleware : Middleware) (wrappedInnerHandler : ConfigurableHandler)
    (request : KintRequest) (context : loc) (config : JsObject) : MaybeFunction :=
  fun extension =>
    let extension := default VUndefined extension in
    (if truthy extension
     then setProp context (name middleware) extension
     else ret tt) ;;
    wrappedInnerHandler request context config.

(** [addMiddleware]. *)
Definition addMiddleware (this : Kint) (middleware : Middleware) : Kint :=
  let newHandlerBuilder :=
    mkHandlerBuilder (fun innermostHandler =>
      let wrappedInnerHandler :=
        buildConfigurableHandler (handlerBuilder this) innermostHandler in
      fun request context config =>
        handler middleware request
          (nextFn middleware wrappedInnerHandler request context config)
          (getProp config (name middleware))) in
  mkKint (defaultConfig this) newHandlerBuilder.

(** [setConfig]. *)
Definition setConfig (this : Kint) (newConfig : FnOrValue) : Kint :=
  let resolvedNewConfig := getFromFnOrValue newConfig (defaultConfig this) in
  mkKint resolvedNewConfig (handlerBuilder this).

(** What [extractParts(...args)] is destructured into. *)
Record EndpointParts : Type := mkEndpointParts {
  config : JsObject;
  validators : ValidatorArray;
  rawHandler : RawHandler
}.

(** [KintEndpointMeta<Context, Config>]; its [data] field is the constant
    string "KintEndpointMeta". *)
Record KintEndpointMeta : Type := mkKintEndpointMeta {
  meta_config : JsObject;
  meta_handler : KintRequest -> loc -> Eff ReqState KintResponse;
  meta_data : string
}.

(** [KintExport<T>]. *)
Record KintExport : Type := mkKintExport {
  builtByKint : bool;
  data : KintEndpointMeta
}.

(** [defineEndpoint], in terms of the two helpers it imports. *)
Definition defineEndpoint
    (extractParts : DefineEndpointFunctionArgs -> EndpointParts)
    (wrapHandlerWithValidationLayer : RawHandler -> ValidatorArray -> ConfigurableHandler)
    (this : Kint) (args : DefineEndpointFunctionArgs) : KintExport :=
  let parts := extractParts args in
  let mergedConfig :=
    mergeDefaultWithMissingItems (defaultConfig this) (config parts) in
  let handlerWithMiddleware :=
    buildConfigurableHandler (handlerBuilder this)
      (wrapHandlerWithValidationLayer (rawHandler parts) (validators parts)) in
  mkKintExport true
    (mkKintEndpointMeta mergedConfig
       (fun request context => handlerWithMiddleware request context mergedConfig)
       "KintEndpointMeta").

(** ** Kint instances as heap objects

    Every method of the class ends in [new Kint(...)].  To state what the
    methods do to the receiver, instances live in a heap and the methods take
    and return references. *)

(** [new Kint(defaultConfig, handlerBuilder)]: a fresh object. *)
Definition construct (fields : Kint) : Eff (gmap loc Kint) loc :=
  fun σ => let l := fresh (dom σ) in (<[l := fields]> σ, Normal l).

(** Reading the fields of [this].  A reference always points to a live
    object in JavaScript; the [Throw] branch is there to make the function
    total. *)
Definition fieldsOf (this : loc) : Eff (gmap loc Kint) Kint :=
  fun σ =>
    match σ !! this with
    | Some fields => (σ, Normal fields)
    | None => (σ, Throw (TypeError "not an object"))
    end.

Definition new_method : Eff (gmap loc Kint) loc :=
  construct Kint_new.

Definition extendConfig_method (this : loc) (extension : JsObject)
    : Eff (gmap loc Kint) loc :=
  let* self := fieldsOf this in construct (extendConfig self extension).

Definition addMiddleware_method (this : loc) (middleware : Middleware)
    : Eff (gmap loc Kint) loc :=
  let* self := fieldsOf this in construct (addMiddleware self middleware).

Definition setConfig_method (this : loc) (newConfig : FnOrValue)
    : Eff (gmap loc Kint) loc :=
  let* self := fieldsOf this in construct (setConfig self newConfig).

(** ** Middleware and handlers that leave a trace *)

(** A middleware that logs its name and calls [next] once, with [extension]. *)
Definition tracing (nm : string) (extension : option JsValue) : Middleware :=
  mkMiddleware nm (fun _ next _ => emit nm ;; next extension).

(** An innermost handler that logs [label] and answers [response]. *)
Definition answering (label : string) (response : KintResponse) : ConfigurableHandler :=
  fun _ _ _ => emit label ;; ret response.

(** A chain with the middleware of [ms] added from left to right. *)
Definition addAll (this : Kint) (ms : list Middleware) : Kint :=
  foldl addMiddleware this ms.

(** What the [next] functions of a chain of tracing middleware, added in the
    order of [specs], have assigned to the context object [o] when the
    innermost handler starts: the middleware added last writes first. *)
Definition written (specs : list (string * option JsValue)) (o : HeapObject)
    : HeapObject :=
  foldr (fun spec o =>
           let extension := default VUndefined spec.2 in
           if truthy extension then assign spec.1 extension o else o)
    o specs.

(** A middleware that logs its name and answers without calling [next]. *)
Definition refusing (nm : string) (response : KintResponse) : Middleware :=
  mkMiddleware nm (fun _ _ _ => emit nm ;; ret response).

End Definitions.

(** An instance of the imports, for running the definitions: requests are
    their URL, responses a status code, an endpoint is defined by its config
    alone, and [extendObject] is an object spread. *)
Definition sample : Imports := {|
  KintRequest := string;
  KintResponse := Z;
  RawHandler := unit;
  ValidatorArray := unit;
  DefineEndpointFunctionArgs := JsObject;
  extendObject := fun obj extension => extension ∪ obj
|}.

(** Two middleware that claim the same name ["auth"]. *)
Definition auth1 : Middleware (imports := sample) :=
  tracing (imports := sample) "auth" (Some (VStr "first")).
Definition auth2 : Middleware (imports := sample) :=
  tracing (imports := sample) "auth" (Some (VStr "second")).

(** [extractParts] for the sample: the arguments are the config. *)
Definition configOnly (args : JsObject) : EndpointParts (imports := sample) :=
  mkEndpointParts (imports := sample) args tt tt.

(** An innermost handler that logs "H" and answers 200. *)
Definition ok : ConfigurableHandler (imports := sample) :=
  answering (imports := sample) "H" 200%Z.

(** A guard that answers 403 without calling [next], and another innermost
    handler. *)
Definition guard : Middleware (imports := sample) :=
  refusing (imports := sample) "guard" 403%Z.
Definition other : ConfigurableHandler (imports := sample) :=
  answering (imports := sample) "other" 500%Z.

End Core.

(* ===================================================================== *)
(** * src/RouteTreeNode.ts                                                *)
(* ===================================================================== *)

Module Routes.

(** The result of [parseSchemaDefinition]: [{success: true, data}] or
    [{success: false, error: {message}}]. *)
Inductive ParseResult : Type :=
| ParseSuccess (data : JsValue)
| ParseFailure (message : string).

(** The schema helpers [RouteTreeNode.ts] imports ([parseSchemaDefinition],
    [toZodObject], [zodKeys]) wrap the schema library and are not among the
    sources.  [emptyDefinition] is the literal [{}] used when an endpoint
    declares no schema for a field. *)
Class Imports : Type := {
  SchemaDefinition : Type;
  ZodObject : Type;
  emptyDefinition : SchemaDefinition;
  parseSchemaDefinition : SchemaDefinition -> JsValue -> ParseResult;
  toZodObject : SchemaDefinition -> ZodObject;
  zodKeys : ZodObject -> list string
}.

(** [Method] (models/Resource). *)
Inductive Method : Type := PUT | POST | GET | DELETE | PATCH.

#[global] Instance Method_eq_dec : EqDecision Method.
Proof. solve_decision. Defined.

Definition Method_code (m : Method) : nat :=
  match m with PUT => 0 | POST => 1 | GET => 2 | DELETE => 3 | PATCH => 4 end.

Definition Method_of_code (n : nat) : option Method :=
  match n with
  | 0 => Some PUT | 1 => Some POST | 2 => Some GET
  | 3 => Some DELETE | 4 => Some PATCH | _ => None
  end.

#[global] Instance Method_countable : Countable Method :=
  inj_countable Method_code Method_of_code
    (fun m => match m with PUT | POST | GET | DELETE | PATCH => eq_refl end).

(** ** The Express request and response, as far as the handler uses them *)

Record Request : Type := mkRequest {
  body : JsValue;
  query : JsValue;
  params : JsValue
}.

(** [res.status(code)] sets [statusCode]; [res.send(text)] sets [sent]. *)
Record Response : Type := mkResponse {
  statusCode : Z;
  sent : option string
}.

Inductive Field : Type := RequestBody | QueryParams | UrlParams.

(** The calls a request handler makes, in order: a ghost log next to the
    request and the response it works on. *)
Inductive Call : Type :=
| CallParse (field : Field)
| CallHandler
| CallNext.

Record Exchange : Type := mkExchange {
  req : Request;
  res : Response;
  calls : list Call
}.

Definition record (c : Call) : Eff Exchange unit :=
  modify (fun x => mkExchange (req x) (res x) (calls x ++ [c])).

Definition set_body (v : JsValue) : Eff Exchange unit :=
  modify (fun x => mkExchange (mkRequest v (query (req x)) (params (req x))) (res x) (calls x)).

Definition set_query (v : JsValue) : Eff Exchange unit :=
  modify (fun x => mkExchange (mkRequest (body (req x)) v (params (req x))) (res x) (calls x)).

Definition set_params (v : JsValue) : Eff Exchange unit :=
  modify (fun x => mkExchange (mkRequest (body (req x)) (query (req x)) v) (res x) (calls x)).

(** [res.status(code).send(text)]. *)
Definition status_send (code : Z) (text : string) : Eff Exchange unit :=
  modify (fun x => mkExchange (req x) (mkResponse code (Some text)) (calls x)).

(** Express's [next()]. *)
Definition next : Eff Exchange unit := record CallNext.

Section Definitions.
Context {imports : Imports}.
Context {C : Type}.

(** [endpoint.endpointDefinition]: an absent ([undefined] or [null]) schema
    is [None]. *)
Record EndpointDefinition : Type := mkEndpointDefinition {
  requestBody : option SchemaDefinition;
  queryParams : option SchemaDefinition;
  urlParams : option SchemaDefinition
}.

(** A default export with an [endpointDefinition], through the three
    properties the file reads.  [builtByKint] is [VUndefined] when the
    property is absent; once [isKintEndpoint] has answered [true] the value
    is used at type [Endpoint<C>].  The handler works on the request and the
    response it is given; the value it returns is awaited and dropped. *)
Record Endpoint : Type := mkEndpoint {
  builtByKint : JsValue;
  endpointDefinition : EndpointDefinition;
  handler : C -> Eff Exchange JsValue
}.

(** [parseSchemaDefinition(def ?? {}, value)], logged. *)
Definition parseField (field : Field) (def : option SchemaDefinition)
    (value : JsValue) : Eff Exchange ParseResult :=
  record (CallParse field) ;;
  ret (parseSchemaDefinition (default emptyDefinition def) value).

(** [createHandlerFromEndpoint]: the request handler it returns, run on the
    exchange [(req, res)] with Express's [next]. *)
Definition createHandlerFromEndpoint (endpoint : Endpoint) (context : C)
    : Eff Exchange unit :=
  let* reqBody := gets (fun x => body (req x)) in
  let* parsedBody :=
    parseField RequestBody (requestBody (endpointDefinition endpoint)) reqBody in
  match parsedBody with
  | ParseFailure message => status_send 400%Z ("Bad request: " +:+ message)
  | ParseSuccess data =>
      set_body data ;;
      let* reqQuery := gets (fun x => query (req x)) in
      let* parsedQueryParams :=
        parseField QueryParams (queryParams (endpointDefinition endpoint)) reqQuery in
      match parsedQueryParams with
      | ParseFailure message => status_send 400%Z ("Bad request: " +:+ message)
      | ParseSuccess data =>
          set_query data ;;
          let* reqParams := gets (fun x => params (req x)) in
          let* parsedUrlParams :=
            parseField UrlParams (urlParams (endpointDefinition endpoint)) reqParams in
          match parsedUrlParams with
          | ParseFailure message => status_send 400%Z ("Bad request: " +:+ message)
          | ParseSuccess data =>
              set_params data ;;
              record CallHandler ;;
              handler endpoint context ;;
              next
          end
      end
  end.

(** ** Building the tree *)

(** What [require(moduleName)?.default] evaluates to when [require]
    returns: [undefined], [null], or a value seen through the properties the
    file reads.  [ExNoDefinition] is a value without the property
    [endpointDefinition] (it reads [undefined], or [null] if
    [definitionIsNull]); [marker] is what its property [builtByKint] reads.
    [ExValue] is a value with an [endpointDefinition]. *)
Inductive Exported : Type :=
| ExUndefined
| ExNull
| ExNoDefinition (marker : JsValue) (definitionIsNull : bool)
| ExValue (e : Endpoint).

(** The module loader.  [require moduleName] is how
    [require(moduleName)?.default] ends for the module path [moduleName],
    taken relative to the routes directory: with a value, or with what
    [require] throws when no module resolves or the module's code throws.
    Which file a path without extension resolves to is the loader's
    business. *)
Class Loader : Type := {
  require : string -> completion Exported
}.

Context {loader : Loader}.

(** What [readdirSync] and [statSync] tell of the entries of a directory: a
    directory with its own entries; a file of another kind; or an entry for
    which [statSync] throws (a dangling link), or which is a directory for
    which [readdirSync] throws. *)
Inductive FsEntry : Type :=
| FsDirectory (entryName : string) (contents : list FsEntry)
| FsFile (entryName : string)
| FsUnreadable (entryName : string) (e : JsError).

(** The fields of a node fixed by its constructor; [parent] is the
    back-reference. *)
Inductive NodeRef : Type :=
| mkNodeRef (name : string) (isUrlParam : bool) (parent : option NodeRef).

Definition name (n : NodeRef) : string :=
  match n with mkNodeRef nm _ _ => nm end.
Definition isUrlParam (n : NodeRef) : bool :=
  match n with mkNodeRef _ b _ => b end.
Definition parent (n : NodeRef) : option NodeRef :=
  match n with mkNodeRef _ _ p => p end.

(** The fields [populateWithDirectoryContents] fills in. *)
Inductive RouteTreeNode : Type :=
| mkRouteTreeNode (self : NodeRef) (subRoutes : list RouteTreeNode)
    (resource : gmap Method Endpoint).

Record NodeFields : Type := mkNodeFields {
  subRoutes : list RouteTreeNode;
  resource : gmap Method Endpoint
}.

(** [isKintEndpoint]: reading a property of [undefined] or [null] throws. *)
Definition isKintEndpoint {S : Type} (test : Exported) : Eff S bool :=
  match test with
  | ExUndefined =>
      throw (TypeError "Cannot read properties of undefined (reading 'builtByKint')")
  | ExNull =>
      throw (TypeError "Cannot read properties of null (reading 'builtByKint')")
  | ExNoDefinition marker _ => ret (strictlyTrue marker)
  | ExValue e => ret (strictlyTrue (builtByKint e))
  end.

(** [getAllUrlParams]: the loop follows [parent] from [this] to the root. *)
Fixpoint getAllUrlParams (this : NodeRef) : list string :=
  match this with
  | mkNodeRef nm isParam p =>
      (if isParam then [nm] else []) ++
      match p with
      | Some currentRoute => getAllUrlParams currentRoute
      | None => []
      end
  end.

(** [\w]. *)
Definition isWordChar (c : ascii) : bool :=
  let n := nat_of_ascii c in
  (48 <=? n) && (n <=? 57) || (65 <=? n) && (n <=? 90) ||
  (97 <=? n) && (n <=? 122) || (n =? 95).

(** [directoryName.match(/^\[(\w+)\]$/)]: the captured group, if any. *)
Definition matchUrlParam (directoryName : string) : option string :=
  match directoryName with
  | String "["%char rest =>
      let n := String.length rest in
      let word := String.substring 0 (n - 1) rest in
      if (String.eqb (String.substring (n - 1) 1 rest) "]" &&
          negb (String.eqb word "") &&
          forallb isWordChar (String.list_ascii_of_string word))%bool
      then Some word else None
  | _ => None
  end.

(** [createSubRoute]. *)
Definition createSubRoute (this : NodeRef) (directoryName : string) : NodeRef :=
  match matchUrlParam directoryName with
  | Some routeName => mkNodeRef routeName true (Some this)
  | None => mkNodeRef directoryName false (Some this)
  end.

(** [currentFileName.match(/^(PUT|POST|GET|DELETE|PATCH)\.(ts|js)$/)]:
    the first group. *)
Definition matchHttpMethod (currentFileName : string) : option Method :=
  if (String.eqb currentFileName "PUT.ts" || String.eqb currentFileName "PUT.js")%bool
  then Some PUT
  else if (String.eqb currentFileName "POST.ts" || String.eqb currentFileName "POST.js")%bool
  then Some POST
  else if (String.eqb currentFileName "GET.ts" || String.eqb currentFileName "GET.js")%bool
  then Some GET
  else if (String.eqb currentFileName "DELETE.ts" || String.eqb currentFileName "DELETE.js")%bool
  then Some DELETE
  else if (String.eqb currentFileName "PATCH.ts" || String.eqb currentFileName "PATCH.js")%bool
  then Some PATCH
  else None.

(** [path.join(relativePathToRoute, currentFileName)] on the arguments the
    builder passes: ["./"] at the root, otherwise a relative path it joined
    before, and the name of a directory entry. *)
Definition path_join (relativePathToRoute currentFileName : string) : string :=
  if String.eqb relativePathToRoute "./" then currentFileName
  else relativePathToRoute +:+ "/" +:+ currentFileName.

(** The part of a string before its last dot, if it has a dot. *)
Fixpoint beforeLastDot (s : string) : option string :=
  match s with
  | EmptyString => None
  | String c rest =>
      match beforeLastDot rest with
      | Some stem => Some (String c stem)
      | None => if Ascii.eqb c "." then Some EmptyString else None
      end
  end.

(** [path.parse(p).name] for the last component of [p], the entry name: the
    name without its extension.  The extension starts at the last dot; a dot
    at the start of the name starts no extension, and [".."] has none. *)
Definition path_parse_name (currentFileName : string) : string :=
  if String.eqb currentFileName ".." then currentFileName
  else
    match currentFileName with
    | EmptyString => EmptyString
    | String c rest =>
        match beforeLastDot rest with
        | Some stem => String c stem
        | None => currentFileName
        end
    end.

Definition notKintEndpointMessage (relativePathToCurrentFile : string) : string :=
  "Endpoint at route " +:+ relativePathToCurrentFile +:+ " is not a Kint endpoint".

Definition urlParamMessage (relativePathToCurrentFile urlParam : string) : string :=
  "Endpoint at /" +:+ relativePathToCurrentFile +:+
  " defines a URL parameter in it's schema (" +:+ urlParam +:+
  ") that does not exist in the route path.".

(** Lines 91-99: every key the endpoint declares is looked up among the
    route's URL parameters. *)
Definition checkUrlParams {S : Type} (relativePathToCurrentFile : string)
    (endpointDefinedUrlsParams routeDefinedUrlParams : list string) : Eff S unit :=
  forEach (fun urlParam =>
    let paramExistsInRoute :=
      bool_decide (urlParam ∈ routeDefinedUrlParams) in
    if paramExistsInRoute then ret tt
    else throw (Error (urlParamMessage relativePathToCurrentFile urlParam)))
  endpointDefinedUrlsParams.

(** Lines 74-102: the loaded value is checked and bound.  Line 82 reads
    [urlParams] of the value's [endpointDefinition], which throws when there
    is no such property. *)
Definition bindMethodFile (this : NodeRef) (relativePathToCurrentFile : string)
    (method : Method) (exported : Exported) : Eff NodeFields unit :=
  let* isKint := isKintEndpoint exported in
  match exported, isKint with
  | ExValue endpoint, true =>
      match urlParams (endpointDefinition endpoint) with
      | Some endpointDefinedUrlParamsSchemaDef =>
          checkUrlParams relativePathToCurrentFile
            (zodKeys (toZodObject endpointDefinedUrlParamsSchemaDef))
            (getAllUrlParams this)
      | None => ret tt
      end ;;
      modify (fun node =>
        mkNodeFields (subRoutes node) (<[method := endpoint]> (resource node)))
  | ExNoDefinition _ definitionIsNull, true =>
      throw (TypeError
               ("Cannot read properties of " +:+
                (if definitionIsNull then "null" else "undefined") +:+
                " (reading 'urlParams')"))
  | _, _ => throw (Error (notKintEndpointMessage relativePathToCurrentFile))
  end.

(** A call that ends as [c] and leaves the store alone. *)
Definition ending {S A : Type} (c : completion A) : Eff S A :=
  fun s => (s, c).

(** Lines 69-72: the module of a method file is named by the file's path
    without the extension. *)
Definition moduleNameOf (relativePathToRoute currentFileName : string) : string :=
  path_join relativePathToRoute (path_parse_name currentFileName).

(** [populateWithDirectoryContents], one directory entry at a time; the
    store holds the fields of [this] being filled in.  [contents] stands for
    what [readdirSync] and [statSync] tell below the current route. *)
Fixpoint populateWithEntry (this : NodeRef) (relativePathToRoute : string)
    (entry : FsEntry) {struct entry} : Eff NodeFields unit :=
  match entry with
  | FsDirectory currentFileName contents =>
      let relativePathToCurrentFile := path_join relativePathToRoute currentFileName in
      let newRouteTreeNode := createSubRoute this currentFileName in
      fun node =>
        match forEach (populateWithEntry newRouteTreeNode relativePathToCurrentFile)
                contents (mkNodeFields [] ∅) with
        | (child, Normal _) =>
            (mkNodeFields
               (subRoutes node ++
                [mkRouteTreeNode newRouteTreeNode (subRoutes child) (resource child)])
               (resource node),
             Normal tt)
        | (_, Throw e) => (node, Throw e)
        end
  | FsFile currentFileName =>
      let relativePathToCurrentFile := path_join relativePathToRoute currentFileName in
      match matchHttpMethod currentFileName with
      | Some method =>
          let moduleName := moduleNameOf relativePathToRoute currentFileName in
          let* endpoint := ending (require moduleName) in
          bindMethodFile this relativePathToCurrentFile method endpoint
      | None => ret tt
      end
  | FsUnreadable _ e => throw e
  end.

Definition populateWithDirectoryContents (this : NodeRef)
    (relativePathToRoute : string) (directoryContents : list FsEntry)
    : Eff NodeFields unit :=
  forEach (populateWithEntry this relativePathToRoute) directoryContents.

(** [fromDirectory]: the tree, or the error the returned promise rejects
    with.  [directory] is the listing of the routes directory. *)
Definition fromDirectory (directory : list FsEntry) : completion RouteTreeNode :=
  let routeTree := mkNodeRef "root" false None in
  match populateWithDirectoryContents routeTree "./" directory (mkNodeFields [] ∅) with
  | (node, Normal _) => Normal (mkRouteTreeNode routeTree (subRoutes node) (resource node))
  | (_, Throw e) => Throw e
  end.

(** ** Vocabulary for statements about a build *)

(** The nodes from [this] up to the root, [this] first. *)
Fixpoint pathToRoot (this : NodeRef) : list NodeRef :=
  this :: match this with
          | mkNodeRef _ _ (Some p) => pathToRoot p
          | mkNodeRef _ _ None => []
          end.

(** A method file as the builder meets it: the names of the directories
    from the routes directory down to it, its own name, its relative path,
    the node of the directory that holds it, the method its name stands for,
    the name of its module and how loading that module ends. *)
Record MethodFile : Type := mkMethodFile {
  fileDirectories : list string;
  fileName : string;
  filePath : string;
  fileNode : NodeRef;
  fileMethod : Method;
  fileModule : string;
  fileExport : completion Exported
}.

(** The file [entryName] lies in a directory tree, below the directories
    [directories] named from the top down. *)
Inductive lies : list FsEntry -> list string -> string -> Prop :=
| lies_here (entries : list FsEntry) (entryName : string) :
    FsFile entryName ∈ entries -> lies entries [] entryName
| lies_below (entries : list FsEntry) (directoryName : string)
      (contents : list FsEntry) (directories : list string) (entryName : string) :
    FsDirectory directoryName contents ∈ entries ->
    lies contents directories entryName ->
    lies entries (directoryName :: directories) entryName.

(** What the builder does on its way through a directory tree: it loads a
    method file, or it meets an entry that cannot be read. *)
Inductive Step : Type :=
| Load (f : MethodFile)
| Unreadable (path : string) (e : JsError).

(** The steps below a route, in the order of the traversal. *)
Fixpoint stepsOfEntry (this : NodeRef) (relativePathToRoute : string)
    (directories : list string) (entry : FsEntry) {struct entry} : list Step :=
  match entry with
  | FsDirectory currentFileName contents =>
      flat_map
        (stepsOfEntry (createSubRoute this currentFileName)
           (path_join relativePathToRoute currentFileName)
           (directories ++ [currentFileName]))
        contents
  | FsFile currentFileName =>
      match matchHttpMethod currentFileName with
      | Some method =>
          [Load (mkMethodFile directories currentFileName
                   (path_join relativePathToRoute currentFileName)
                   this method
                   (moduleNameOf relativePathToRoute currentFileName)
                   (require (moduleNameOf relativePathToRoute currentFileName)))]
      | None => []
      end
  | FsUnreadable currentFileName e =>
      [Unreadable (path_join relativePathToRoute currentFileName) e]
  end.

Definition steps (directory : list FsEntry) : list Step :=
  flat_map (stepsOfEntry (mkNodeRef "root" false None) "./" []) directory.

(** The method files of a directory tree, in the order of the traversal. *)
Definition methodFiles (directory : list FsEntry) : list MethodFile :=
  omap (fun step =>
          match step with
          | Load f => Some f
          | Unreadable _ _ => None
          end) (steps directory).

(** Every entry of the tree can be read. *)
Definition readable (directory : list FsEntry) : Prop :=
  forall path e, Unreadable path e ∉ steps directory.

(** How loading, checking and binding one method file ends. *)
Definition fileOutcome (f : MethodFile) : completion unit :=
  ((let* endpoint := ending (fileExport f) in
    bindMethodFile (fileNode f) (filePath f) (fileMethod f) endpoint)
     (mkNodeFields [] ∅)).2.

Definition stepOutcome (step : Step) : completion unit :=
  match step with
  | Load f => fileOutcome f
  | Unreadable _ e => Throw e
  end.

(** The first throw of a sequence of outcomes. *)
Fixpoint firstThrow (outcomes : list (completion unit)) : completion unit :=
  match outcomes with
  | [] => Normal tt
  | Normal _ :: rest => firstThrow rest
  | Throw e :: _ => Throw e
  end.

(** The module of the file exports an endpoint, a value with an
    [endpointDefinition], that carries the marker. *)
Definition marked (f : MethodFile) : Prop :=
  match fileExport f with
  | Normal (ExValue e) => builtByKint e = VBool true
  | _ => False
  end.

(** The keys of the [urlParams] schema the file's endpoint declares. *)
Definition declaredUrlParams (f : MethodFile) : list string :=
  match fileExport f with
  | Normal (ExValue e) =>
      match urlParams (endpointDefinition e) with
      | Some def => zodKeys (toZodObject def)
      | None => []
      end
  | _ => []
  end.

(** The name of a URL-parameter directory for the parameter [k]: [k] in
    square brackets, [k] a word. *)
Definition parameterDirectory (directoryName k : string) : Prop :=
  directoryName = "[" +:+ k +:+ "]" /\ k <> EmptyString /\
  forallb isWordChar (String.list_ascii_of_string k) = true.

(** The name of a directory entry: it is not empty and has no ["/"]. *)
Definition entryNameLike (entryName : string) : Prop :=
  entryName <> EmptyString /\
  "/"%char ∉ String.list_ascii_of_string entryName.

(** ** The rest of the class *)

(** [getRootDirectory]: the loop follows [parent] while there is one. *)
Fixpoint getRootDirectory (this : NodeRef) : NodeRef :=
  match this with
  | mkNodeRef _ _ (Some currentRoute) => getRootDirectory currentRoute
  | mkNodeRef _ _ None => this
  end.

Definition nodeSelf (node : RouteTreeNode) : NodeRef :=
  match node with mkRouteTreeNode self _ _ => self end.
Definition nodeSubRoutes (node : RouteTreeNode) : list RouteTreeNode :=
  match node with mkRouteTreeNode _ subs _ => subs end.
Definition nodeResource (node : RouteTreeNode) : gmap Method Endpoint :=
  match node with mkRouteTreeNode _ _ res => res end.

(** An Express router, as the calls made on it in order:
    [router.get/put/post/patch/delete(path, handler)] and
    [router.use(path, subRouter)].  Every router of the file is created with
    [mergeParams: true]. *)
Inductive Layer : Type :=
| VerbLayer (verb : Method) (path : string) (handler : Eff Exchange unit)
| UseLayer (path : string) (subRouter : list Layer).

Definition router_verb (verb : Method) (path : string)
    (handler : Eff Exchange unit) : Eff (list Layer) unit :=
  modify (fun router => router ++ [VerbLayer verb path handler]).

Definition router_use (path : string) (subRouter : list Layer)
    : Eff (list Layer) unit :=
  modify (fun router => router ++ [UseLayer path subRouter]).

(** [E && router.verb('/', this.createHandlerFromEndpoint(E, context))]:
    an endpoint is truthy, an absent property is not. *)
Definition registerIfBound (verb : Method) (resource : gmap Method Endpoint)
    (context : C) : Eff (list Layer) unit :=
  match resource !! verb with
  | Some endpoint =>
      router_verb verb "/" (createHandlerFromEndpoint endpoint context)
  | None => ret tt
  end.

(** [applyResource]. *)
Definition applyResource (resource : gmap Method Endpoint) (context : C)
    : Eff (list Layer) unit :=
  registerIfBound GET resource context ;;
  registerIfBound PUT resource context ;;
  registerIfBound POST resource context ;;
  registerIfBound PATCH resource context ;;
  registerIfBound DELETE resource context.

(** ['/' + (subRoute.isUrlParam ? ':' : '') + subRoute.name]. *)
Definition routePath (subRoute : NodeRef) : string :=
  "/" +:+ (if isUrlParam subRoute then ":" else "") +:+ name subRoute.

(** [toExpressRouter]: the router it returns. *)
Fixpoint toExpressRouter (context : C) (currentPath : string)
    (this : RouteTreeNode) {struct this} : list Layer :=
  match this with
  | mkRouteTreeNode _ subs res =>
      (bind (applyResource res context) (fun _ =>
         forEach (fun subRoute =>
           let subRouter :=
             toExpressRouter context
               (currentPath +:+ "/" +:+ name (nodeSelf subRoute)) subRoute in
           router_use (routePath (nodeSelf subRoute)) subRouter)
         subs) []).1
  end.

(** ** More vocabulary for statements about a build *)

(** The names of the subdirectories of a directory, in order. *)
Definition directoryNames (contents : list FsEntry) : list string :=
  omap (fun entry =>
          match entry with
          | FsDirectory currentFileName _ => Some currentFileName
          | _ => None
          end) contents.

(** The methods that have a method file directly in a directory. *)
Definition directMethods (contents : list FsEntry) : list Method :=
  omap (fun entry =>
          match entry with
          | FsFile currentFileName => matchHttpMethod currentFileName
          | _ => None
          end) contents.

(** The invariant of a tree: every bound endpoint carries the marker and
    declares only URL parameters of its node, and every sub-route points
    back to its node. *)
Inductive wellFormed : RouteTreeNode -> Prop :=
| wellFormed_node (self : NodeRef) (subs : list RouteTreeNode)
    (res : gmap Method Endpoint) :
    (forall method endpoint,
        res !! method = Some endpoint ->
        builtByKint endpoint = VBool true /\
        forall def, urlParams (endpointDefinition endpoint) = Some def ->
          forall k, k ∈ zodKeys (toZodObject def) -> k ∈ getAllUrlParams self) ->
    Forall (fun sub => parent (nodeSelf sub) = Some self) subs ->
    Forall wellFormed subs ->
    wellFormed (mkRouteTreeNode self subs res).

(** The file name of a method, without the extension. *)
Definition methodName (method : Method) : string :=
  match method with
  | PUT => "PUT" | POST => "POST" | GET => "GET"
  | DELETE => "DELETE" | PATCH => "PATCH"
  end.

(** The order in which [applyResource] registers the verbs. *)
Definition verbOrder : list Method := [GET; PUT; POST; PATCH; DELETE].

(** The endpoints bound in a tree, each with the mount paths from the top
    router down to the router of its node, and its verb. *)
Fixpoint boundEndpoints (mounts : list string) (this : RouteTreeNode)
    {struct this} : list (list string * Method * Endpoint) :=
  match this with
  | mkRouteTreeNode _ subs res =>
      omap (fun verb => (fun endpoint => (mounts, verb, endpoint)) <$> res !! verb)
        verbOrder
      ++ flat_map (fun sub => boundEndpoints (mounts ++ [routePath (nodeSelf sub)]) sub)
           subs
  end.

(** The verb handlers of a router and of the routers mounted in it, each
    with the mount paths that lead to it, its verb and its own path. *)
Fixpoint servedByLayer (mounts : list string) (layer : Layer)
    {struct layer} : list (list string * Method * string) :=
  match layer with
  | VerbLayer verb path _ => [(mounts, verb, path)]
  | UseLayer path subRouter =>
      flat_map (servedByLayer (mounts ++ [path])) subRouter
  end.

Definition servedRoutes (mounts : list string) (router : list Layer)
    : list (list string * Method * string) :=
  flat_map (servedByLayer mounts) router.

End Definitions.

Arguments Endpoint {imports} C.
Arguments Exported {imports} C.
Arguments Loader {imports} C.
Arguments RouteTreeNode {imports} C.
Arguments NodeFields {imports} C.
Arguments MethodFile {imports} C.
Arguments Step {imports} C.

(** An instance of the schema helpers, for running the definitions: a
    schema definition lists the keys an object must have; parsing keeps the
    listed keys and drops the others. *)
Definition sample : Imports := {|
  SchemaDefinition := list string;
  ZodObject := list string;
  emptyDefinition := [];
  parseSchemaDefinition := fun keys value =>
    match value with
    | VObj fields =>
        if forallb (fun k => bool_decide (is_Some (fields !! k))) keys
        then ParseSuccess
               (VObj (list_to_map (omap (fun k => pair k <$> fields !! k) keys)))
        else ParseFailure "Required"
    | _ => ParseFailure "Expected object"
    end;
  toZodObject := fun def => def;
  zodKeys := fun schema => schema
|}.

(** An endpoint built by Kint that requires [bodyKeys] in the body, declares
    the URL parameters [urlKeys] and answers 200. *)
Definition sampleEndpoint (bodyKeys urlKeys : list string)
    : Endpoint (imports := sample) unit :=
  mkEndpoint (imports := sample) (VBool true)
    (mkEndpointDefinition (imports := sample) (Some bodyKeys) None (Some urlKeys))
    (fun _ => status_send 200%Z "ok" ;; ret VUndefined).

(** The directory [users/[id]/POST.ts]. *)
Definition usersDirectory : list FsEntry :=
  [FsDirectory "users" [FsDirectory "[id]" [FsFile "POST.ts"]]].

(** A loader for which every module has the default export [exported]. *)
Definition exporting (exported : Exported (imports := sample) unit)
    : Loader (imports := sample) unit :=
  {| require := fun _ => Normal exported |}.

(** A loader that knows the modules of [table] and throws for the others. *)
Definition modules (table : list (string * Exported (imports := sample) unit))
    : Loader (imports := sample) unit :=
  {| require := fun moduleName =>
       match list_find (fun entry => String.eqb entry.1 moduleName = true) table with
       | Some (_, (_, exported)) => Normal exported
       | None => Throw (Error ("Cannot find module '" +:+ moduleName +:+ "'"))
       end |}.

(** A request as Express hands it over, before anything was sent. *)
Definition incoming (body query params : JsValue) : Exchange :=
  mkExchange (mkRequest body query params) (mkResponse 200%Z None) [].

End Routes.

(* ===================================================================== *)
(** * Properties of the monad and of values                               *)
(* ===================================================================== *)

Lemma nesting_field (fields : JsObject) (k : string) (v : JsValue) :
  fields !! k = Some v -> nesting v < nesting (VObj fields).
Proof.
  intros Hk. simpl.
  rewrite (map_fold_delete_L _ _ k v fields); [lia| |done].
  intros. lia.
Qed.

(** Induction on values, with the hypothesis for every field of an object. *)
Lemma JsValue_fields_ind (P : JsValue -> Prop) :
  P VUndefined -> P VNull -> (forall b, P (VBool b)) -> (forall n, P (VNum n)) ->
  (forall s, P (VStr s)) ->
  (forall fields : JsObject, map_Forall (fun _ v => P v) fields -> P (VObj fields)) ->
  forall v, P v.
Proof.
  intros Hu Hn Hb Hz Hs Ho v.
  remember (nesting v) as n eqn:Hdepth. revert v Hdepth.
  induction n as [n IH] using lt_wf_ind. intros v ->.
  destruct v as [| | | | |fields]; auto.
  apply Ho. intros k v Hk. apply (IH (nesting v)); [|done].
  by eapply nesting_field.
Qed.

Lemma mergeValue_self (v : JsValue) : mergeValue v v = v.
Proof.
  induction v as [| | | | |fields IH] using JsValue_fields_ind; try done.
  simpl. f_equal. apply map_eq. intros k.
  rewrite lookup_union_with.
  destruct (fields !! k) as [v|] eqn:Hk; simpl; [|done].
  f_equal. by eapply IH.
Qed.

Lemma mergeValue_idempotent (d o : JsValue) :
  mergeValue d (mergeValue d o) = mergeValue d o.
Proof.
  revert d.
  induction o as [| | | | |fields IH] using JsValue_fields_ind; intros d;
    try (by destruct d).
  destruct d as [| | | | |defaults]; try done.
  simpl. f_equal. apply map_eq. intros k.
  rewrite !lookup_union_with.
  destruct (fields !! k) as [ov|] eqn:Ho, (defaults !! k) as [dv|] eqn:Hd;
    simpl; try done.
  - f_equal. by eapply IH.
  - f_equal. apply mergeValue_self.
Qed.

Lemma mergeDefaultWithMissingItems_idempotent (d o : JsObject) :
  mergeDefaultWithMissingItems d (mergeDefaultWithMissingItems d o)
  = mergeDefaultWithMissingItems d o.
Proof.
  pose proof (mergeValue_idempotent (VObj d) (VObj o)) as E.
  simpl in E. by injection E.
Qed.

Lemma mergeDefaultWithMissingItems_lookup (d o : JsObject) (k : string) :
  mergeDefaultWithMissingItems d o !! k =
  match o !! k, d !! k with
  | Some ov, Some dv => Some (mergeValue dv ov)
  | Some ov, None => Some ov
  | None, dflt => dflt
  end.
Proof.
  unfold mergeDefaultWithMissingItems. rewrite lookup_union_with.
  by destruct (o !! k), (d !! k).
Qed.

Lemma mergeDefaultWithMissingItems_empty (o : JsObject) :
  mergeDefaultWithMissingItems ∅ o = o.
Proof.
  apply map_eq. intros k.
  rewrite mergeDefaultWithMissingItems_lookup, lookup_empty.
  by destruct (o !! k).
Qed.

Lemma bind_ret_l {S A B : Type} (a : A) (k : A -> Eff S B) (s : S) :
  bind (ret a) k s = k a s.
Proof. reflexivity. Qed.

Lemma bind_modify {S B : Type} (f : S -> S) (k : unit -> Eff S B) (s : S) :
  bind (modify f) k s = k tt (f s).
Proof. reflexivity. Qed.

Lemma bind_throw {S A B : Type} (e : JsError) (k : A -> Eff S B) (s : S) :
  bind (throw e) k s = (s, Throw e).
Proof. reflexivity. Qed.

Lemma bind_assoc {S A B D : Type} (c : Eff S A) (k : A -> Eff S B)
    (k' : B -> Eff S D) (s : S) :
  bind (bind c k) k' s = bind c (fun a => bind (k a) k') s.
Proof. unfold bind. destruct (c s) as [s' [a|e]]; reflexivity. Qed.

(* ===================================================================== *)
(** * Properties of the middleware composition (Kint.ts)                  *)
(* ===================================================================== *)

Section KintProperties.
Import Core.
Context {imports : Imports}.

(** The state in which [next(extension)] calls the inner handler. *)
Lemma nextFn_run (middleware : Middleware) (inner : ConfigurableHandler)
    (request : KintRequest) (context : loc) (config : JsObject)
    (extension : option JsValue) (s : ReqState) :
  nextFn middleware inner request context config extension s =
  inner request context config
    (if truthy (default VUndefined extension)
     then mkReqState
            (alter (assign (name middleware) (default VUndefined extension))
               context (heap s))
            (trace s)
     else s).
Proof.
  unfold nextFn. destruct (truthy (default VUndefined extension)); reflexivity.
Qed.

(** Assigning to a name other than ["__proto__"] defines the own property. *)
Lemma assign_define (k : string) (v : JsValue) (o : HeapObject) :
  k ≠ "__proto__" ->
  assign k v o = mkHeapObject (<[k := v]> (own o)) (prototype o).
Proof. intros Hk. unfold assign. by rewrite bool_decide_eq_false_2. Qed.

(** An assignment leaves the other own properties alone. *)
Lemma assign_own_other (k k' : string) (v : JsValue) (o : HeapObject) :
  k' ≠ k -> own (assign k v o) !! k' = own o !! k'.
Proof.
  intros Hk. unfold assign, setPrototype.
  destruct (bool_decide (k = "__proto__")); simpl;
    [|by rewrite lookup_insert_ne].
  destruct (own o !! k); simpl; [by rewrite lookup_insert_ne|].
  destruct (prototype o) as [|fields|]; simpl.
  - by destruct v.
  - destruct (fields !! k); simpl; [by rewrite lookup_insert_ne|].
    by destruct v.
  - by rewrite lookup_insert_ne.
Qed.

(** A chain of tracing middleware on top of [base] logs the names from the
    last added to the first added, then runs what [base] compiles. *)
Lemma tracing_chain_run (specs : list (string * option JsValue)) (base : Kint)
    (innermost : ConfigurableHandler) (request : KintRequest) (context : loc)
    (config : JsObject) (s : ReqState) :
  exists s' : ReqState,
    buildConfigurableHandler
      (handlerBuilder (addAll base (map (fun p => tracing p.1 p.2) specs)))
      innermost request context config s
    = buildConfigurableHandler (handlerBuilder base) innermost
        request context config s'
    /\ trace s' = trace s ++ rev (map fst specs).
Proof.
  revert s. induction specs as [|[nm ext] specs IH] using rev_ind; intros s.
  - exists s. split; [reflexivity|]. simpl. by rewrite app_nil_r.
  - unfold addAll. rewrite map_app, foldl_app. simpl.
    unfold bind at 1. simpl. rewrite nextFn_run. simpl.
    match goal with
    | |- context [buildConfigurableHandler _ innermost request context config ?s0] =>
        destruct (IH s0) as (s' & Hrun & Htrace)
    end.
    exists s'. split; [exact Hrun|].
    rewrite Htrace, map_app, rev_app_distr. simpl.
    destruct (truthy (default VUndefined ext)); simpl; by rewrite <- app_assoc.
Qed.

(** C1. Execution order is the reverse of declaration order.  For any three
    middleware M1, M2, M3 added in this order to a fresh Kint, the handler
    compiled against H is M3's handler, whose [next] runs M2's handler, whose
    [next] runs M1's handler, whose [next] runs H.  When each middleware logs
    its name and then calls [next], and H logs "H", the log of one request
    reads M3, M2, M1, H. *)
Theorem addMiddleware_runs_last_added_first :
  (forall (M1 M2 M3 : Middleware) (H : ConfigurableHandler)
          (request : KintRequest) (context : loc) (config : JsObject),
      buildConfigurableHandler
        (handlerBuilder
           (addMiddleware (addMiddleware (addMiddleware Kint_new M1) M2) M3))
        H request context config
      = handler M3 request
          (nextFn M3
             (fun request context config =>
                handler M2 request
                  (nextFn M2
                     (fun request context config =>
                        handler M1 request
                          (nextFn M1 H request context config)
                          (getProp config (name M1)))
                     request context config)
                  (getProp config (name M2)))
             request context config)
          (getProp config (name M3)))
  /\
  (forall (n1 n2 n3 : string) (e1 e2 e3 : option JsValue)
          (response : KintResponse)
          (request : KintRequest) (context : loc) (config : JsObject)
          (s : ReqState),
      let chain :=
        addMiddleware
          (addMiddleware (addMiddleware Kint_new (tracing n1 e1)) (tracing n2 e2))
          (tracing n3 e3) in
      let run :=
        buildConfigurableHandler (handlerBuilder chain) (answering "H" response)
          request context config s in
      run.2 = Normal response /\
      trace run.1 = trace s ++ [n3; n2; n1; "H"]).
Proof.
  split; [reflexivity|].
  intros n1 n2 n3 e1 e2 e3 response request context config s chain run.
  destruct (tracing_chain_run [(n1, e1); (n2, e2); (n3, e3)] Kint_new
              (answering "H" response) request context config s)
    as (s' & Hrun & Htrace).
  assert (Hrun' : run = answering "H" response request context config s')
    by exact Hrun.
  rewrite Hrun'. unfold answering, emit. simpl.
  split; [reflexivity|]. rewrite Htrace, <- app_assoc. reflexivity.
Qed.

(** C9. [Kint.new] is the identity chain: compiled against H, it is H, on
    every request, context and config.  An endpoint defined on the fresh
    chain therefore runs its validation-wrapped handler directly, with the
    endpoint's merged config. *)
Theorem Kint_new_compiles_to_innermost (H : ConfigurableHandler) :
  buildConfigurableHandler (handlerBuilder Kint_new) H = H
  /\ (forall (request : KintRequest) (context : loc) (config : JsObject)
             (s : ReqState),
        buildConfigurableHandler (handlerBuilder Kint_new) H
          request context config s
        = H request context config s)
  /\ (forall (extractParts : DefineEndpointFunctionArgs -> EndpointParts)
             (wrapHandlerWithValidationLayer :
                RawHandler -> ValidatorArray -> ConfigurableHandler)
             (args : DefineEndpointFunctionArgs),
        let endpoint :=
          data (defineEndpoint extractParts wrapHandlerWithValidationLayer
                  Kint_new args) in
        forall (request : KintRequest) (context : loc) (s : ReqState),
          meta_handler endpoint request context s
          = wrapHandlerWithValidationLayer (rawHandler (extractParts args))
              (validators (extractParts args))
              request context (meta_config endpoint) s).
Proof. repeat split. Qed.

(** C10 (amended). The [next] a middleware receives from a compiled chain
    calls the inner handler with the same request, context reference and
    config.  With no argument or a falsy extension the store is passed on as
    it is.  In every case other objects, and the own properties of the
    context under other names, are left alone.  For a middleware whose name
    is not ["__proto__"], a truthy extension becomes the own property of the
    context named after the middleware, and the prototype of the context is
    left alone as well. *)
Theorem next_writes_only_own_slot_when_truthy
    (this : Kint) (middleware : Middleware) (innermostHandler : ConfigurableHandler)
    (request : KintRequest) (context : loc) (config : JsObject) :
  let inner := buildConfigurableHandler (handlerBuilder this) innermostHandler in
  let next := nextFn middleware inner request context config in
  buildConfigurableHandler (handlerBuilder (addMiddleware this middleware))
    innermostHandler request context config
  = handler middleware request next (getProp config (name middleware))
  /\
  forall (extension : option JsValue) (s : ReqState),
    let v := default VUndefined extension in
    exists s' : ReqState,
      next extension s = inner request context config s'
      /\ trace s' = trace s
      /\ (truthy v = false -> s' = s)
      /\ (forall l : loc, l ≠ context -> heap s' !! l = heap s !! l)
      /\ (forall k : string, k ≠ name middleware ->
            (heap s' !! context ≫= fun o => own o !! k)
            = (heap s !! context ≫= fun o => own o !! k))
      /\ (name middleware ≠ "__proto__" ->
          (truthy v = true ->
           heap s' !! context =
           (fun o => mkHeapObject (<[name middleware := v]> (own o)) (prototype o))
             <$> heap s !! context)
          /\ prototype <$> heap s' !! context = prototype <$> heap s !! context).
Proof.
  intros inner next. split; [reflexivity|].
  intros extension s v. subst next. rewrite nextFn_run. fold v.
  destruct (truthy v) eqn:Hv.
  - eexists. split; [reflexivity|]. simpl.
    split; [reflexivity|]. split; [discriminate|].
    split; [intros l Hl; by rewrite lookup_alter_ne|].
    split.
    + intros k Hk. rewrite lookup_alter_eq.
      destruct (heap s !! context) as [o|]; simpl; [|done].
      by apply assign_own_other.
    + intros Hname. rewrite lookup_alter_eq.
      destruct (heap s !! context) as [o|]; simpl; [|done].
      rewrite assign_define by done. done.
  - exists s. repeat split; try done.
Qed.

(** Each method reads its receiver and allocates one new instance. *)
Lemma construct_run (fields : Kint) (σ : gmap loc Kint) :
  construct fields σ = (<[fresh (dom σ) := fields]> σ, Normal (fresh (dom σ)))
  /\ σ !! fresh (dom σ) = None.
Proof.
  split; [reflexivity|]. apply not_elem_of_dom, is_fresh.
Qed.

Lemma method_run (σ : gmap loc Kint) (this : loc) (self : Kint)
    (derive : Kint -> Kint) :
  σ !! this = Some self ->
  (let* fields := fieldsOf this in construct (derive fields)) σ
  = (<[fresh (dom σ) := derive self]> σ, Normal (fresh (dom σ))).
Proof.
  intros Hthis. unfold bind, fieldsOf. rewrite Hthis. reflexivity.
Qed.

Lemma allocation_frame (σ : gmap loc Kint) (fields : Kint) (l : loc) (o : Kint) :
  σ !! l = Some o -> <[fresh (dom σ) := fields]> σ !! l = Some o.
Proof.
  intros Hl. rewrite lookup_insert_ne; [done|].
  intros <-. pose proof (is_fresh (dom σ)) as Hfresh.
  apply Hfresh, elem_of_dom. eauto.
Qed.

(** C5, as the code has it.  Middleware names are checked by the type of
    [addMiddleware]'s parameter only.  At run time the method never throws:
    whatever the name of the middleware, it returns a new chain whose handler
    builder wraps the receiver's. *)
Theorem addMiddleware_never_throws (σ : gmap loc Kint) (this : loc) (self : Kint)
    (middleware : Middleware) :
  σ !! this = Some self ->
  exists (l : loc) (σ' : gmap loc Kint),
    addMiddleware_method this middleware σ = (σ', Normal l)
    /\ σ' !! l = Some (addMiddleware self middleware).
Proof.
  intros Hthis. unfold addMiddleware_method.
  rewrite (method_run σ this self (fun fields => addMiddleware fields middleware) Hthis).
  do 2 eexists. split; [reflexivity|]. by rewrite lookup_insert_eq.
Qed.

(** C7. [addMiddleware], [extendConfig] and [setConfig] return a new chain
    and leave every existing instance, the receiver among them, as it was:
    the receiver still has its default config and its handler builder.  Two
    chains derived from one base do not affect the base nor each other. *)
Theorem methods_leave_receiver_unchanged (σ : gmap loc Kint) (this : loc)
    (self : Kint) (middleware : Middleware) (extension : JsObject)
    (newConfig : FnOrValue) :
  σ !! this = Some self ->
  (forall (call : Eff (gmap loc Kint) loc) (fields : Kint),
      (call, fields) ∈
        [ (addMiddleware_method this middleware, addMiddleware self middleware);
          (extendConfig_method this extension, extendConfig self extension);
          (setConfig_method this newConfig, setConfig self newConfig) ] ->
      exists (l : loc) (σ' : gmap loc Kint),
        call σ = (σ', Normal l)
        /\ σ !! l = None
        /\ l ≠ this
        /\ σ' !! l = Some fields
        /\ σ' !! this = Some self
        /\ (forall (l0 : loc) (o : Kint), σ !! l0 = Some o -> σ' !! l0 = Some o))
  /\
  (forall middleware' : Middleware,
      exists (a b : loc) (σ' : gmap loc Kint),
        (let* a := addMiddleware_method this middleware in
         let* b := addMiddleware_method this middleware' in
         ret (a, b)) σ = (σ', Normal (a, b))
        /\ a ≠ b
        /\ σ' !! this = Some self
        /\ σ' !! a = Some (addMiddleware self middleware)
        /\ σ' !! b = Some (addMiddleware self middleware')).
Proof.
  intros Hthis.
  assert (Hfresh : fresh (dom σ) ≠ this).
  { intros E. pose proof (is_fresh (dom σ)) as Hf. apply Hf.
    rewrite E. apply elem_of_dom. eauto. }
  split.
  - intros call fields Hin.
    assert (Hcall : call σ
              = (<[fresh (dom σ) := fields]> σ, Normal (fresh (dom σ)))).
    { rewrite !elem_of_cons, elem_of_nil in Hin.
      destruct Hin as [E|[E|[E|[]]]]; injection E as -> ->.
      - exact (method_run σ this self (fun f => addMiddleware f middleware) Hthis).
      - exact (method_run σ this self (fun f => extendConfig f extension) Hthis).
      - exact (method_run σ this self (fun f => setConfig f newConfig) Hthis). }
    exists (fresh (dom σ)), (<[fresh (dom σ) := fields]> σ).
    split; [exact Hcall|].
    split; [apply not_elem_of_dom, is_fresh|].
    split; [exact Hfresh|].
    split; [by rewrite lookup_insert_eq|].
    split; [by apply allocation_frame|].
    intros l0 o. apply allocation_frame.
  - intros middleware'.
    set (a := fresh (dom σ)).
    set (σ1 := <[a := addMiddleware self middleware]> σ).
    assert (Hthis1 : σ1 !! this = Some self) by (by apply allocation_frame).
    set (b := fresh (dom σ1)).
    assert (Hab : a ≠ b).
    { intros E. pose proof (is_fresh (dom σ1)) as Hf. apply Hf. fold b.
      rewrite <- E. apply elem_of_dom. subst σ1. rewrite lookup_insert_eq. eauto. }
    exists a, b, (<[b := addMiddleware self middleware']> σ1).
    split.
    { unfold bind at 1. unfold addMiddleware_method at 1.
      rewrite (method_run σ this self (fun f => addMiddleware f middleware) Hthis).
      fold a. fold σ1. unfold bind at 1. unfold addMiddleware_method.
      rewrite (method_run σ1 this self (fun f => addMiddleware f middleware') Hthis1).
      reflexivity. }
    split; [exact Hab|].
    split; [by apply allocation_frame|].
    split; [|by rewrite lookup_insert_eq].
    apply allocation_frame. subst σ1. by rewrite lookup_insert_eq.
Qed.

(** C8. The config of a defined endpoint is the merge of the chain's default
    with the endpoint's override, and merging it with the same default again
    changes nothing.  The merge takes from the default the keys the override
    lacks and keeps every value of the override that is not an object; where
    both hold an object under a key the two are merged in the same way. *)
Theorem mergedConfig_merge_idempotent
    (extractParts : DefineEndpointFunctionArgs -> EndpointParts)
    (wrapHandlerWithValidationLayer :
       RawHandler -> ValidatorArray -> ConfigurableHandler)
    (this : Kint) (args : DefineEndpointFunctionArgs) :
  let override := config (extractParts args) in
  let mergedConfig :=
    meta_config (data (defineEndpoint extractParts wrapHandlerWithValidationLayer
                         this args)) in
  mergedConfig = mergeDefaultWithMissingItems (defaultConfig this) override
  /\ mergeDefaultWithMissingItems (defaultConfig this) mergedConfig = mergedConfig
  /\ (forall k : string,
        override !! k = None -> mergedConfig !! k = defaultConfig this !! k)
  /\ (forall (k : string) (v : JsValue),
        override !! k = Some v -> (forall fields, v ≠ VObj fields) ->
        mergedConfig !! k = Some v).
Proof.
  intros override mergedConfig.
  assert (E : mergedConfig
              = mergeDefaultWithMissingItems (defaultConfig this) override)
    by reflexivity.
  split; [exact E|]. rewrite E. clear E mergedConfig.
  split; [apply mergeDefaultWithMissingItems_idempotent|].
  split.
  - intros k Hk. rewrite mergeDefaultWithMissingItems_lookup, Hk. reflexivity.
  - intros k v Hk Hv. rewrite mergeDefaultWithMissingItems_lookup, Hk.
    destruct (defaultConfig this !! k) as [dv|]; [|reflexivity].
    f_equal. destruct v, dv; try reflexivity. by destruct (Hv fields).
Qed.

End KintProperties.

(* ===================================================================== *)
(** * Properties of the per-node request handler (RouteTreeNode.ts)       *)
(* ===================================================================== *)

Section HandlerProperties.
Import Routes.
Context {imports : Imports}.
Context {C : Type}.

(** C3. The handler parses the body, then the query, then the URL
    parameters.  At the first field that fails to parse it answers 400 with
    "Bad request: " and the failure's message, and returns: the fields
    parsed before it have been replaced on the request, no later field is
    parsed, the endpoint handler is not called and neither is [next]. *)
Theorem first_parse_failure_answers_400 (endpoint : Endpoint C) (context : C)
    (x : Exchange) :
  let def := endpointDefinition endpoint in
  let parsedBody :=
    parseSchemaDefinition (default emptyDefinition (requestBody def)) (body (req x)) in
  let parsedQueryParams :=
    parseSchemaDefinition (default emptyDefinition (queryParams def)) (query (req x)) in
  let parsedUrlParams :=
    parseSchemaDefinition (default emptyDefinition (urlParams def)) (params (req x)) in
  let badRequest message := mkResponse 400%Z (Some ("Bad request: " +:+ message)) in
  (forall message : string,
      parsedBody = ParseFailure message ->
      createHandlerFromEndpoint endpoint context x
      = (mkExchange (req x) (badRequest message)
           (calls x ++ [CallParse RequestBody]),
         Normal tt))
  /\ (forall (newBody : JsValue) (message : string),
      parsedBody = ParseSuccess newBody ->
      parsedQueryParams = ParseFailure message ->
      createHandlerFromEndpoint endpoint context x
      = (mkExchange (mkRequest newBody (query (req x)) (params (req x)))
           (badRequest message)
           (calls x ++ [CallParse RequestBody; CallParse QueryParams]),
         Normal tt))
  /\ (forall (newBody newQuery : JsValue) (message : string),
      parsedBody = ParseSuccess newBody ->
      parsedQueryParams = ParseSuccess newQuery ->
      parsedUrlParams = ParseFailure message ->
      createHandlerFromEndpoint endpoint context x
      = (mkExchange (mkRequest newBody newQuery (params (req x)))
           (badRequest message)
           (calls x ++
            [CallParse RequestBody; CallParse QueryParams; CallParse UrlParams]),
         Normal tt)).
Proof.
  intros def parsedBody parsedQueryParams parsedUrlParams badRequest.
  subst parsedBody parsedQueryParams parsedUrlParams def.
  repeat split.
  - intros message Hbody.
    unfold createHandlerFromEndpoint, parseField, bind, gets, record, modify, ret.
    simpl. rewrite Hbody. unfold status_send, modify. reflexivity.
  - intros newBody message Hbody Hquery.
    unfold createHandlerFromEndpoint, parseField, bind, gets, record, modify, ret.
    simpl. rewrite Hbody. simpl. rewrite Hquery.
    unfold status_send, modify. simpl. by rewrite <- app_assoc.
  - intros newBody newQuery message Hbody Hquery Hparams.
    unfold createHandlerFromEndpoint, parseField, bind, gets, record, modify, ret.
    simpl. rewrite Hbody. simpl. rewrite Hquery. simpl. rewrite Hparams.
    unfold status_send, modify. simpl. by rewrite <- !app_assoc.
Qed.

(** C4. When the three fields parse, the endpoint handler runs on the
    request whose body, query and params are the parsed values, with the
    response untouched so far.  What the handler leaves in the response is
    the response, whatever value it returns.  [next] is called after the
    handler has returned, and not at all when it throws. *)
Theorem parsed_request_reaches_handler (endpoint : Endpoint C) (context : C)
    (x : Exchange) (newBody newQuery newParams : JsValue) :
  let def := endpointDefinition endpoint in
  parseSchemaDefinition (default emptyDefinition (requestBody def)) (body (req x))
    = ParseSuccess newBody ->
  parseSchemaDefinition (default emptyDefinition (queryParams def)) (query (req x))
    = ParseSuccess newQuery ->
  parseSchemaDefinition (default emptyDefinition (urlParams def)) (params (req x))
    = ParseSuccess newParams ->
  let atCall :=
    mkExchange (mkRequest newBody newQuery newParams) (res x)
      (calls x ++
       [CallParse RequestBody; CallParse QueryParams; CallParse UrlParams;
        CallHandler]) in
  createHandlerFromEndpoint endpoint context x
  = match handler endpoint context atCall with
    | (after, Normal _) =>
        (mkExchange (req after) (res after) (calls after ++ [CallNext]), Normal tt)
    | (after, Throw e) => (after, Throw e)
    end.
Proof.
  intros def Hbody Hquery Hparams atCall. subst def atCall.
  unfold createHandlerFromEndpoint, parseField, bind, gets, record, modify, ret.
  simpl. rewrite Hbody. simpl. rewrite Hquery. simpl. rewrite Hparams. simpl.
  rewrite <- !app_assoc. simpl.
  destruct (handler endpoint context _) as [after [returned|e]]; reflexivity.
Qed.

End HandlerProperties.

(* ===================================================================== *)
(** * Names and paths                                                     *)
(* ===================================================================== *)

Section NamingLemmas.
Import Routes.

Lemma substring_prefix (w r : string) :
  String.substring 0 (String.length w) (w +:+ r) = w.
Proof.
  induction w as [|c w IH]; simpl; [by destruct r|]. by rewrite IH.
Qed.

Lemma substring_suffix (w r : string) (n : nat) :
  String.substring (String.length w) n (w +:+ r) = String.substring 0 n r.
Proof. induction w as [|c w IH]; simpl; [reflexivity|exact IH]. Qed.

Lemma substring_all (s : string) :
  String.substring 0 (String.length s) s = s.
Proof. induction s as [|c s IH]; simpl; [reflexivity|by rewrite IH]. Qed.

Lemma substring_split (s : string) (k : nat) :
  k <= String.length s ->
  s = String.substring 0 k s +:+ String.substring k (String.length s - k) s.
Proof.
  revert k. induction s as [|c s IH]; intros k Hk; simpl in *.
  - by destruct k.
  - destruct k as [|k]; simpl.
    + by rewrite substring_all.
    + transitivity
        (String c (String.substring 0 k s
                   +:+ String.substring k (String.length s - k) s));
        [|reflexivity].
      f_equal. apply IH. lia.
Qed.

(** A directory name that stands for a parameter is the parameter between
    square brackets. *)
Lemma matchUrlParam_Some_brackets (directoryName word : string) :
  matchUrlParam directoryName = Some word ->
  directoryName = "[" +:+ word +:+ "]".
Proof.
  unfold matchUrlParam.
  destruct directoryName as [|c rest]; [discriminate|].
  destruct (Ascii.eqb_spec c "["%char) as [->|Hc].
  2:{ destruct c as [[] [] [] [] [] [] [] []]; try discriminate.
      by destruct Hc. }
  simpl.
  destruct (String.eqb_spec
              (String.substring (String.length rest - 1) 1 rest) "]")
    as [Hlast|]; [|discriminate]. simpl.
  destruct (negb _ && _)%bool; [|discriminate].
  intros [= <-].
  assert (Hlen : String.length rest <> 0)
    by (intros E; destruct rest; [discriminate Hlast|discriminate E]).
  pose proof (substring_split rest (String.length rest - 1)) as Hsplit.
  replace (String.length rest - (String.length rest - 1)) with 1 in Hsplit by lia.
  rewrite Hlast in Hsplit.
  change (String "[" rest
          = String "[" (String.substring 0 (String.length rest - 1) rest +:+ "]")).
  f_equal. apply Hsplit. lia.
Qed.

Lemma string_length_app (w r : string) :
  String.length (w +:+ r) = String.length w + String.length r.
Proof. induction w as [|c w IH]; simpl; [reflexivity|by rewrite IH]. Qed.

(** The directories [createSubRoute] takes for the parameter [k] are the
    parameter directories of [k]. *)
Lemma matchUrlParam_parameterDirectory (directoryName k : string) :
  matchUrlParam directoryName = Some k <-> parameterDirectory directoryName k.
Proof.
  unfold parameterDirectory. split.
  - intros Hmatch. split; [by apply matchUrlParam_Some_brackets|].
    revert Hmatch. unfold matchUrlParam.
    destruct directoryName as [|c rest]; [discriminate|].
    destruct (Ascii.eqb_spec c "["%char) as [->|Hc].
    2:{ destruct c as [[] [] [] [] [] [] [] []]; try discriminate.
        by destruct Hc. }
    simpl.
    destruct (String.eqb (String.substring (String.length rest - 1) 1 rest) "]");
      [|discriminate]. simpl.
    destruct (String.eqb_spec
                (String.substring 0 (String.length rest - 1) rest) "")
      as [|Hword]; [discriminate|]. simpl.
    destruct (forallb _ _) eqn:Hchars; [|discriminate].
    intros [= <-]. done.
  - intros (-> & Hword & Hchars). unfold matchUrlParam.
    change ("[" +:+ k +:+ "]") with (String "["%char (k +:+ "]")).
    cbv beta iota.
    rewrite string_length_app. simpl.
    replace (String.length k + 1 - 1) with (String.length k) by lia.
    rewrite substring_suffix, substring_prefix. simpl.
    destruct (String.eqb_spec k "") as [|_]; [done|]. simpl.
    by rewrite Hchars.
Qed.

(** The module of a method file is named after the verb. *)
Lemma path_parse_name_method (currentFileName : string) (method : Method) :
  matchHttpMethod currentFileName = Some method ->
  path_parse_name currentFileName = methodName method.
Proof.
  unfold matchHttpMethod.
  repeat match goal with
         | |- context [String.eqb currentFileName ?b] =>
             destruct (String.eqb_spec currentFileName b) as [->|?]; simpl
         end;
    first [discriminate | intros [= <-]; reflexivity].
Qed.

Lemma string_app_assoc (a b c : string) : (a +:+ b) +:+ c = a +:+ (b +:+ c).
Proof.
  induction a as [|x a IH]; [reflexivity|].
  change (String x ((a +:+ b) +:+ c) = String x (a +:+ (b +:+ c))).
  by rewrite IH.
Qed.

Lemma string_app_empty (a b : string) : a +:+ b = "" -> a = "" /\ b = "".
Proof.
  destruct a as [|x a]; intros E.
  - split; [reflexivity|exact E].
  - change (String x (a +:+ b) = "") in E. discriminate.
Qed.

(** Joining with a separator, one more name at the end. *)
Lemma concat_snoc (names : list string) (last : string) :
  names ≠ [] ->
  String.concat "/" (names ++ [last]) = String.concat "/" names +:+ "/" +:+ last.
Proof.
  induction names as [|d [|d' rest] IH]; intros Hne; [done|reflexivity|].
  change (d +:+ "/" +:+ String.concat "/" ((d' :: rest) ++ [last])
          = (d +:+ "/" +:+ String.concat "/" (d' :: rest)) +:+ "/" +:+ last).
  rewrite IH by done. by rewrite !string_app_assoc.
Qed.

(** Names of directory entries never join to ["./"]. *)
Lemma concat_not_current (names : list string) :
  names ≠ [] -> Forall entryNameLike names -> String.concat "/" names ≠ "./".
Proof.
  destruct names as [|d [|d' rest]]; intros Hne Hnames; [done| |].
  - simpl. intros ->. apply Forall_cons in Hnames as [[_ Hslash] _].
    apply Hslash. right. left.
  - apply Forall_cons in Hnames as [[Hd Hslash] Hrest].
    apply Forall_cons in Hrest as [[Hd' _] _].
    change (d +:+ "/" +:+ String.concat "/" (d' :: rest) ≠ "./").
    destruct d as [|c [|c' d]]; [done| |].
    + intros [= -> Hjoin].
      assert (Hempty : String.concat "/" (d' :: rest) = "") by exact Hjoin.
      destruct rest; [by apply Hd'|].
      by apply string_app_empty in Hempty as [? _].
    + intros [= -> -> _]. apply Hslash. right. left.
Qed.

(** The relative path of an entry is the names from the routes directory
    down to it, joined by ["/"]. *)
Lemma path_join_concat (directories : list string) (rel entryName : string) :
  Forall entryNameLike directories ->
  rel = match directories with [] => "./" | _ => String.concat "/" directories end ->
  path_join rel entryName = String.concat "/" (directories ++ [entryName]).
Proof.
  intros Hnames ->. unfold path_join.
  destruct directories as [|d rest]; [reflexivity|].
  destruct (String.eqb_spec (String.concat "/" (d :: rest)) "./") as [E|_].
  - by apply concat_not_current in E.
  - by rewrite concat_snoc.
Qed.

Lemma elem_of_rev {A : Type} (x : A) (l : list A) : x ∈ rev l <-> x ∈ l.
Proof. rewrite !list_elem_of_In. symmetry. apply in_rev. Qed.

Lemma find_first (P : string -> bool) (keys keys' : list string) (k : string) :
  (forall k', k' ∈ keys -> P k' = false) -> P k = true ->
  List.find P (keys ++ k :: keys') = Some k.
Proof.
  intros Hkeys Hk. induction keys as [|k0 keys IH]; simpl; [by rewrite Hk|].
  rewrite (Hkeys k0) by left. apply IH. intros k' Hk'. apply Hkeys. by right.
Qed.

End NamingLemmas.

(* ===================================================================== *)
(** * Properties of the route-tree construction (RouteTreeNode.ts)        *)
(* ===================================================================== *)

Section BuildProperties.
Import Routes.
Context {imports : Imports}.
Context {C : Type}.
Context {loader : Loader C}.

(** Induction on a directory tree, with the hypothesis for every entry of a
    directory. *)
Lemma FsEntry_contents_ind (P : FsEntry -> Prop) :
  (forall nm contents, Forall P contents -> P (FsDirectory nm contents)) ->
  (forall nm, P (FsFile nm)) ->
  (forall nm e, P (FsUnreadable nm e)) ->
  forall entry, P entry.
Proof.
  intros Hdir Hfile Hunreadable. fix IH 1. intros [nm contents|nm|nm e].
  - apply Hdir. induction contents as [|entry rest IHrest].
    + constructor.
    + constructor; [apply IH | exact IHrest].
  - apply Hfile.
  - apply Hunreadable.
Qed.

Lemma firstThrow_app (xs ys : list (completion unit)) :
  firstThrow (xs ++ ys)
  = match firstThrow xs with
    | Normal _ => firstThrow ys
    | Throw e => Throw e
    end.
Proof.
  induction xs as [|[[]|e] xs IH]; simpl; [destruct (firstThrow ys) as [[]|]| |]; done.
Qed.

(** [getAllUrlParams] collects the names of the URL-parameter nodes between
    the node and the root, the node included. *)
Lemma getAllUrlParams_pathToRoot (this : NodeRef) :
  getAllUrlParams this = map name (filter (fun n => isUrlParam n = true) (pathToRoot this)).
Proof.
  revert this. fix IH 1. intros [nm isParam [p|]].
  - simpl. rewrite (IH p), filter_cons. simpl.
    destruct isParam; simpl; [|reflexivity].
    destruct p; reflexivity.
  - simpl. rewrite filter_cons. simpl. destruct isParam; reflexivity.
Qed.

(** The loop over the declared keys stops at the first key that is not a
    URL parameter of the route. *)
Lemma checkUrlParams_run {S : Type} (path : string) (keys routeParams : list string)
    (s : S) :
  checkUrlParams path keys routeParams s
  = (s,
     match List.find (fun k => negb (bool_decide (k ∈ routeParams))) keys with
     | Some k => Throw (Error (urlParamMessage path k))
     | None => Normal tt
     end).
Proof.
  unfold checkUrlParams. induction keys as [|k keys IH]; [reflexivity|].
  simpl. unfold bind at 1.
  destruct (bool_decide (k ∈ routeParams)); simpl; [exact IH|reflexivity].
Qed.

(** How a method file ends does not depend on the node fields so far. *)
Lemma bindMethodFile_outcome (f : MethodFile C) (node : NodeFields C) :
  ((let* endpoint := ending (fileExport f) in
    bindMethodFile (fileNode f) (filePath f) (fileMethod f) endpoint) node).2
  = fileOutcome f.
Proof.
  unfold fileOutcome, bindMethodFile, bind, ending. simpl.
  destruct (fileExport f) as [[| |marker isNull|e]|err]; simpl; try reflexivity.
  - destruct (strictlyTrue marker); reflexivity.
  - destruct (strictlyTrue (builtByKint e)); [|reflexivity].
    destruct (urlParams (endpointDefinition e)) as [def|]; [|reflexivity].
    rewrite !checkUrlParams_run.
    destruct (List.find _ _); reflexivity.
Qed.

Lemma strictlyTrue_spec (v : JsValue) : strictlyTrue v = true <-> v = VBool true.
Proof.
  destruct v as [| |[]| | |]; simpl; split; congruence.
Qed.

(** The outcome of a file whose export carries the marker is decided by the
    first declared key that the route lacks. *)
Lemma fileOutcome_marked (f : MethodFile C) :
  marked f ->
  fileOutcome f
  = match List.find
            (fun k => negb (bool_decide (k ∈ getAllUrlParams (fileNode f))))
            (declaredUrlParams f) with
    | Some k => Throw (Error (urlParamMessage (filePath f) k))
    | None => Normal tt
    end.
Proof.
  destruct f as [dirs nm path node method moduleName [[| |marker isNull|e]|err]];
    unfold marked; simpl; try done.
  intros Hmark. unfold fileOutcome, declaredUrlParams, bindMethodFile, bind.
  simpl. rewrite Hmark. simpl.
  destruct (urlParams (endpointDefinition e)) as [def|]; [|reflexivity].
  rewrite checkUrlParams_run. destruct (List.find _ _); reflexivity.
Qed.

(** A file that is loaded, checked and bound without a throw carries the
    marker. *)
Lemma fileOutcome_Normal_marked (f : MethodFile C) :
  fileOutcome f = Normal tt -> marked f.
Proof.
  destruct f as [dirs nm path node method moduleName [[| |marker isNull|e]|err]];
    unfold fileOutcome, marked; simpl; try discriminate.
  - unfold bindMethodFile, bind. simpl. by destruct (strictlyTrue marker).
  - unfold bindMethodFile, bind. simpl.
    destruct (strictlyTrue (builtByKint e)) eqn:Hmark; [|discriminate].
    intros _. by apply strictlyTrue_spec.
Qed.

(** A file passes when its export carries the marker and every key it
    declares is a URL parameter of its route. *)
Lemma fileOutcome_Normal (f : MethodFile C) :
  fileOutcome f = Normal tt
  <-> marked f /\
      forall k, k ∈ declaredUrlParams f -> k ∈ getAllUrlParams (fileNode f).
Proof.
  split.
  - intros Hout. pose proof (fileOutcome_Normal_marked f Hout) as Hmark.
    split; [exact Hmark|]. intros k Hk.
    rewrite (fileOutcome_marked f Hmark) in Hout.
    destruct (List.find _ _) as [k'|] eqn:Hfind; [discriminate|].
    pose proof (List.find_none _ _ Hfind k) as Hnone. simpl in Hnone.
    apply list_elem_of_In in Hk. specialize (Hnone Hk).
    by apply negb_false_iff, bool_decide_eq_true in Hnone.
  - intros [Hmark Hkeys]. rewrite (fileOutcome_marked f Hmark).
    destruct (List.find _ _) as [k|] eqn:Hfind; [|reflexivity].
    apply List.find_some in Hfind as [Hin Hk].
    apply negb_true_iff, bool_decide_eq_false in Hk.
    destruct Hk. apply Hkeys. by apply list_elem_of_In.
Qed.

(** An export with an [endpointDefinition] but without the marker is
    refused with the message that names the file. *)
Lemma fileOutcome_unmarked (f : MethodFile C) (e : Endpoint C) :
  fileExport f = Normal (ExValue e) ->
  builtByKint e ≠ VBool true ->
  fileOutcome f = Throw (Error (notKintEndpointMessage (filePath f))).
Proof.
  intros Hexport Hmark. unfold fileOutcome, bindMethodFile, bind, ending.
  rewrite Hexport. simpl.
  destruct (strictlyTrue (builtByKint e)) eqn:E; [|reflexivity].
  by apply strictlyTrue_spec in E.
Qed.

Lemma forEach_cons {S A : Type} (body : A -> Eff S unit) (x : A) (rest : list A)
    (s : S) :
  forEach body (x :: rest) s
  = match body x s with
    | (s', Normal _) => forEach body rest s'
    | (s', Throw e) => (s', Throw e)
    end.
Proof. reflexivity. Qed.

(** A traversal ends with the first throw among its steps. *)
Lemma populateWithEntry_outcome (entry : FsEntry) :
  forall (this : NodeRef) (rel : string) (directories : list string)
         (node : NodeFields C),
    (populateWithEntry this rel entry node).2
    = firstThrow (map stepOutcome (stepsOfEntry this rel directories entry)).
Proof.
  induction entry as [nm contents IH|nm|nm err] using FsEntry_contents_ind;
    intros this rel directories node.
  - simpl.
    set (child := createSubRoute this nm). set (rel' := path_join rel nm).
    set (directories' := directories ++ [nm]).
    assert (Hloop : forall start : NodeFields C,
               (forEach (populateWithEntry child rel') contents start).2
               = firstThrow
                   (map stepOutcome
                      (flat_map (stepsOfEntry child rel' directories') contents))).
    { induction IH as [|entry rest Hentry _ IHrest]; intros start.
      - reflexivity.
      - rewrite forEach_cons. simpl flat_map. rewrite map_app, firstThrow_app.
        rewrite <- (Hentry child rel' directories' start).
        destruct (populateWithEntry child rel' entry start) as [s' [[]|e]];
          simpl; [apply IHrest|reflexivity]. }
    rewrite <- (Hloop (mkNodeFields [] ∅)).
    destruct (forEach _ contents _) as [s' [[]|e]]; reflexivity.
  - simpl. destruct (matchHttpMethod nm) as [method|]; [|reflexivity].
    simpl.
    pose proof (bindMethodFile_outcome
                  (mkMethodFile directories nm (path_join rel nm) this method
                     (moduleNameOf rel nm) (require (moduleNameOf rel nm)))
                  node) as Hfile.
    simpl in Hfile. rewrite Hfile.
    by destruct (fileOutcome _) as [[]|].
  - reflexivity.
Qed.

Lemma populateWithDirectoryContents_outcome (this : NodeRef) (rel : string)
    (directories : list string) (contents : list FsEntry) (node : NodeFields C) :
  (populateWithDirectoryContents this rel contents node).2
  = firstThrow
      (map stepOutcome (flat_map (stepsOfEntry this rel directories) contents)).
Proof.
  unfold populateWithDirectoryContents. revert node.
  induction contents as [|entry rest IH]; intros node; [reflexivity|].
  rewrite forEach_cons. simpl flat_map. rewrite map_app, firstThrow_app.
  rewrite <- (populateWithEntry_outcome entry this rel directories node).
  destruct (populateWithEntry this rel entry node) as [s' [[]|e]];
    simpl; [apply IH|reflexivity].
Qed.

(** [fromDirectory] returns a tree when no step throws, and otherwise throws
    what the first throwing step throws. *)
Lemma fromDirectory_outcome (directory : list FsEntry) :
  match firstThrow (map stepOutcome (steps directory)) with
  | Normal _ => exists tree, fromDirectory directory = Normal tree
  | Throw e => fromDirectory directory = Throw e
  end.
Proof.
  unfold steps, fromDirectory.
  rewrite <- (populateWithDirectoryContents_outcome _ _ [] directory
                (mkNodeFields [] ∅)).
  destruct (populateWithDirectoryContents _ _ directory _) as [node [[]|e]];
    simpl; eauto.
Qed.

Lemma firstThrow_Normal (outcomes : list (completion unit)) :
  firstThrow outcomes = Normal tt <-> forall o, o ∈ outcomes -> o = Normal tt.
Proof.
  induction outcomes as [|[[]|e] rest IH]; simpl.
  - split; [intros _ o Ho; by apply elem_of_nil in Ho|done].
  - rewrite IH. split.
    + intros Hrest o Ho. apply elem_of_cons in Ho as [->|Ho]; auto.
    + intros Hall o Ho. apply Hall. by right.
  - split; [discriminate|]. intros Hall.
    assert (E : Throw e = Normal tt :> completion unit) by (apply Hall; by left).
    discriminate.
Qed.

Lemma firstThrow_Throw (outcomes : list (completion unit)) (e : JsError) :
  firstThrow outcomes = Throw e -> Throw e ∈ outcomes.
Proof.
  induction outcomes as [|[[]|e'] rest IH]; simpl; [discriminate| |].
  - intros Hrest. right. auto.
  - intros [= ->]. by left.
Qed.

(** A key is a URL parameter of the route when a URL-parameter node between
    the node and the root has that name. *)
Lemma getAllUrlParams_elem (this : NodeRef) (k : string) :
  k ∈ getAllUrlParams this
  <-> exists n, n ∈ pathToRoot this /\ isUrlParam n = true /\ name n = k.
Proof.
  rewrite getAllUrlParams_pathToRoot, list_elem_of_fmap.
  split.
  - intros (n & -> & Hn). apply list_elem_of_filter in Hn as [Hparam Hn]. eauto.
  - intros (n & Hn & Hparam & <-). exists n. split; [reflexivity|].
    by apply list_elem_of_filter.
Qed.

(** The method files are the files the steps load. *)
Lemma methodFiles_steps (directory : list FsEntry) (f : MethodFile C) :
  f ∈ methodFiles directory <-> Load f ∈ steps directory.
Proof.
  unfold methodFiles. rewrite list_elem_of_omap. split.
  - intros ([g|path e] & Hstep & [= ->]). exact Hstep.
  - intros Hstep. by exists (Load f).
Qed.

(** A build that returns a tree has passed every step. *)
Lemma fromDirectory_Normal_steps (directory : list FsEntry)
    (tree : RouteTreeNode C) :
  fromDirectory directory = Normal tree ->
  forall step, step ∈ steps directory -> stepOutcome step = Normal tt.
Proof.
  intros Htree step Hstep.
  pose proof (fromDirectory_outcome directory) as Hbuild.
  destruct (firstThrow _) as [[]|e] eqn:Hfirst; [|congruence].
  apply (proj1 (firstThrow_Normal _) Hfirst). by apply list_elem_of_fmap_2.
Qed.

(** A method file whose export lacks the marker leaves no tree. *)
Lemma unmarked_file_aborts_build (directory : list FsEntry) (f : MethodFile C) :
  f ∈ methodFiles directory -> ~ marked f ->
  exists e, fromDirectory directory = Throw e.
Proof.
  intros Hf Hmark. pose proof (fromDirectory_outcome directory) as Hbuild.
  destruct (firstThrow _) as [[]|e] eqn:Hfirst; [|eauto].
  destruct Hmark. apply fileOutcome_Normal_marked.
  apply (proj1 (firstThrow_Normal _) Hfirst (stepOutcome (Load f))).
  apply list_elem_of_fmap_2. by apply methodFiles_steps.
Qed.

(** The path of a method file spells the names of the directories above it
    and its own name; its route has the parameters that the directories
    above it stand for. *)
Lemma stepsOfEntry_located (entry : FsEntry) :
  forall (this : NodeRef) (rel : string) (directories : list string)
         (f : MethodFile C),
    Load f ∈ stepsOfEntry this rel directories entry ->
    (Forall entryNameLike directories ->
     rel = match directories with
           | [] => "./"
           | _ => String.concat "/" directories
           end) ->
    getAllUrlParams this = rev (omap matchUrlParam directories) ->
    (Forall entryNameLike (fileDirectories f) ->
     filePath f = String.concat "/" (fileDirectories f ++ [fileName f]))
    /\ getAllUrlParams (fileNode f) = rev (omap matchUrlParam (fileDirectories f)).
Proof.
  induction entry as [nm contents IH|nm|nm err] using FsEntry_contents_ind;
    intros this rel directories f Hf Hrel Hparams.
  - simpl in Hf. apply list_elem_of_In, in_flat_map in Hf as (entry & Hentry & Hf).
    apply list_elem_of_In in Hentry, Hf.
    rewrite Forall_forall in IH.
    apply (IH entry Hentry _ _ _ f Hf).
    + intros Hnames. pose proof Hnames as Hnames'.
      apply Forall_app in Hnames' as [Hdirs _].
      rewrite (path_join_concat directories rel nm Hdirs (Hrel Hdirs)).
      by destruct directories.
    + rewrite omap_app, rev_app_distr. simpl.
      unfold createSubRoute.
      destruct (matchUrlParam nm) as [word|]; simpl; by rewrite Hparams.
  - simpl in Hf. destruct (matchHttpMethod nm) as [method|];
      [|by apply elem_of_nil in Hf].
    apply list_elem_of_singleton in Hf. injection Hf as ->. simpl.
    split; [|exact Hparams].
    intros Hnames. by apply path_join_concat; [|apply Hrel].
  - simpl in Hf. apply list_elem_of_singleton in Hf. discriminate.
Qed.

(** The method files are the files of the tree with the name of a method
    file, each with the directories above it. *)
Lemma lies_mono (entries entries' : list FsEntry) (directories : list string)
    (entryName : string) :
  (forall entry, entry ∈ entries -> entry ∈ entries') ->
  lies entries directories entryName -> lies entries' directories entryName.
Proof.
  intros Hsub Hlies. destruct Hlies as [entries nm Hin|entries d contents dirs nm Hin Hbelow].
  - apply lies_here. by apply Hsub.
  - apply (lies_below _ d contents); [by apply Hsub|exact Hbelow].
Qed.

Lemma stepsOfEntry_lies (entry : FsEntry) :
  forall (this : NodeRef) (rel : string) (directories : list string)
         (f : MethodFile C),
    Load f ∈ stepsOfEntry this rel directories entry ->
    exists below,
      fileDirectories f = directories ++ below
      /\ lies [entry] below (fileName f)
      /\ matchHttpMethod (fileName f) = Some (fileMethod f).
Proof.
  induction entry as [nm contents IH|nm|nm err] using FsEntry_contents_ind;
    intros this rel directories f Hf; simpl in Hf.
  - apply list_elem_of_In, in_flat_map in Hf as (entry & Hentry & Hf).
    apply list_elem_of_In in Hentry, Hf.
    rewrite Forall_forall in IH.
    destruct (IH entry Hentry _ _ _ f Hf) as (below & Hdirs & Hlies & Hmatch).
    exists (nm :: below). split; [by rewrite Hdirs, <- app_assoc|].
    split; [|exact Hmatch].
    apply (lies_below _ nm contents); [left|].
    apply (lies_mono [entry]); [|exact Hlies].
    intros entry' Hin. apply list_elem_of_singleton in Hin. by subst entry'.
  - destruct (matchHttpMethod nm) as [method|] eqn:Hmatch;
      [|by apply elem_of_nil in Hf].
    apply list_elem_of_singleton in Hf. injection Hf as ->. simpl.
    exists []. split; [by rewrite app_nil_r|]. split; [|exact Hmatch].
    apply lies_here. left.
  - apply list_elem_of_singleton in Hf. discriminate.
Qed.

Lemma lies_steps (entries : list FsEntry) (below : list string)
    (entryName : string) (method : Method) :
  lies entries below entryName ->
  matchHttpMethod entryName = Some method ->
  forall (this : NodeRef) (rel : string) (directories : list string),
    exists f : MethodFile C,
      Load f ∈ flat_map (stepsOfEntry this rel directories) entries
      /\ fileDirectories f = directories ++ below
      /\ fileName f = entryName.
Proof.
  intros Hlies Hmatch.
  induction Hlies as [entries nm Hin|entries d contents dirs nm Hin _ IH];
    intros this rel directories.
  - eexists. split; [|split].
    + apply list_elem_of_In, in_flat_map. exists (FsFile nm).
      split; [by apply list_elem_of_In|].
      simpl. rewrite Hmatch. left. reflexivity.
    + simpl. by rewrite app_nil_r.
    + reflexivity.
  - destruct (IH Hmatch (createSubRoute this d) (path_join rel d)
                (directories ++ [d]))
      as (f & Hf & Hdirs & Hname).
    exists f. split; [|split; [|exact Hname]].
    + apply list_elem_of_In, in_flat_map. exists (FsDirectory d contents).
      split; [by apply list_elem_of_In|]. by apply list_elem_of_In.
    + by rewrite Hdirs, <- app_assoc.
Qed.

Lemma methodFiles_lies (directory : list FsEntry) :
  (forall f : MethodFile C,
      f ∈ methodFiles directory ->
      lies directory (fileDirectories f) (fileName f)
      /\ matchHttpMethod (fileName f) = Some (fileMethod f))
  /\ (forall directories entryName method,
        lies directory directories entryName ->
        matchHttpMethod entryName = Some method ->
        exists f : MethodFile C,
          f ∈ methodFiles directory
          /\ fileDirectories f = directories /\ fileName f = entryName).
Proof.
  split.
  - intros f Hf. apply methodFiles_steps in Hf. unfold steps in Hf.
    apply list_elem_of_In, in_flat_map in Hf as (entry & Hentry & Hf).
    apply list_elem_of_In in Hentry, Hf.
    destruct (stepsOfEntry_lies entry _ _ _ f Hf) as (below & Hdirs & Hlies & Hmatch).
    simpl in Hdirs. rewrite Hdirs. split; [|exact Hmatch].
    apply (lies_mono [entry]); [|exact Hlies].
    intros entry' Hin. apply list_elem_of_singleton in Hin. by subst entry'.
  - intros directories entryName method Hlies Hmatch.
    destruct (lies_steps directory directories entryName method Hlies Hmatch
                (mkNodeRef "root" false None) "./" [])
      as (f & Hf & Hdirs & Hname).
    exists f. split; [by apply methodFiles_steps|]. by split.
Qed.

Lemma steps_located (directory : list FsEntry) (f : MethodFile C) :
  Load f ∈ steps directory ->
  (Forall entryNameLike (fileDirectories f) ->
   filePath f = String.concat "/" (fileDirectories f ++ [fileName f]))
  /\ getAllUrlParams (fileNode f) = rev (omap matchUrlParam (fileDirectories f)).
Proof.
  unfold steps. intros Hf.
  apply list_elem_of_In, in_flat_map in Hf as (entry & _ & Hf).
  apply list_elem_of_In in Hf.
  by apply (stepsOfEntry_located entry _ _ _ f Hf).
Qed.

(** C2.  The method files of a build are the files of the directory tree
    whose name is a verb with the extension of a method file.  Every key of
    an endpoint's [urlParams] schema must name a URL-parameter node between
    the file's node and the root, the node itself included; these nodes are
    the ones of the directories above the file whose name is a word in
    square brackets.  A build that returns a tree has
    found every method file to export an endpoint with the marker and every
    declared key to be present, so a build that meets a missing key returns
    no tree.  When every entry can be read and every method file passes this
    check, the build returns a tree.  When the first step that does not pass
    is a method file exporting an endpoint with the marker, the build throws
    the error whose message spells the path of that file, from the routes
    directory, and the first key the file declares and its route lacks.  In
    particular, when every entry can be read and every method file exports
    an endpoint with the marker, a missing key makes the build throw such an
    error for a file and a key that the file declares and its route lacks. *)
Theorem urlParams_keys_checked_against_route (directory : list FsEntry) :
  let files := methodFiles directory in
  let present (f : MethodFile C) (k : string) :=
    exists n, n ∈ pathToRoot (fileNode f) /\ isUrlParam n = true /\ name n = k in
  let passes (f : MethodFile C) :=
    marked f /\ forall k, k ∈ declaredUrlParams f -> present f k in
  let message (f : MethodFile C) (k : string) :=
    "Endpoint at /" +:+ String.concat "/" (fileDirectories f ++ [fileName f]) +:+
    " defines a URL parameter in it's schema (" +:+ k +:+
    ") that does not exist in the route path." in
  ((forall f, f ∈ files ->
      lies directory (fileDirectories f) (fileName f)
      /\ matchHttpMethod (fileName f) = Some (fileMethod f))
   /\ (forall directories entryName method,
         lies directory directories entryName ->
         matchHttpMethod entryName = Some method ->
         exists f, f ∈ files
           /\ fileDirectories f = directories /\ fileName f = entryName))
  /\ (forall f k, f ∈ files ->
     (present f k <->
      exists d, d ∈ fileDirectories f /\ parameterDirectory d k))
  /\ (forall tree, fromDirectory directory = Normal tree ->
      forall f, f ∈ files -> passes f)
  /\ (forall f k, f ∈ files -> k ∈ declaredUrlParams f -> ~ present f k ->
      forall tree, fromDirectory directory <> Normal tree)
  /\ (readable directory -> (forall f, f ∈ files -> passes f) ->
      exists tree, fromDirectory directory = Normal tree)
  /\ (forall before f after keys k keys',
        steps directory = map Load before ++ Load f :: after ->
        (forall g, g ∈ before -> passes g) ->
        marked f ->
        declaredUrlParams f = keys ++ k :: keys' ->
        (forall k', k' ∈ keys -> present f k') ->
        ~ present f k ->
        Forall entryNameLike (fileDirectories f) ->
        fromDirectory directory = Throw (Error (message f k)))
  /\ (readable directory ->
      (forall f, f ∈ files ->
         marked f /\ Forall entryNameLike (fileDirectories f)) ->
      forall f k, f ∈ files -> k ∈ declaredUrlParams f -> ~ present f k ->
      exists f' k',
        f' ∈ files /\ k' ∈ declaredUrlParams f' /\ ~ present f' k'
        /\ fromDirectory directory = Throw (Error (message f' k'))).
Proof.
  intros files present passes message.
  assert (Hpresent : forall f k, present f k <-> k ∈ getAllUrlParams (fileNode f)).
  { intros f k. symmetry. apply getAllUrlParams_elem. }
  assert (Hpasses : forall f, passes f <-> fileOutcome f = Normal tt).
  { intros f. rewrite fileOutcome_Normal. unfold passes.
    split; intros [Hmark Hkeys]; (split; [exact Hmark|]);
      intros k Hk; apply Hpresent; auto. }
  pose proof (fromDirectory_outcome directory) as Hbuild.
  assert (Hchecked : forall tree, fromDirectory directory = Normal tree ->
                       forall f, f ∈ files -> passes f).
  { intros tree Htree f Hf. apply Hpasses.
    apply (fromDirectory_Normal_steps directory tree Htree (Load f)).
    by apply methodFiles_steps. }
  split; [apply methodFiles_lies|].
  split; [|split; [exact Hchecked|split; [|split; [|split]]]].
  - intros f k Hf. rewrite Hpresent.
    apply methodFiles_steps, steps_located in Hf as [_ ->].
    rewrite elem_of_rev, list_elem_of_omap.
    split; intros (d & Hd & Hmatch); exists d; (split; [exact Hd|]);
      by apply matchUrlParam_parameterDirectory.
  - intros f k Hf Hk Hmissing tree Htree.
    destruct (Hchecked tree Htree f Hf) as [_ Hkeys]. by apply Hmissing, Hkeys.
  - intros Hreadable Hfiles.
    assert (Hfirst : firstThrow (map stepOutcome (steps directory)) = Normal tt).
    { apply firstThrow_Normal. intros o Ho.
      apply list_elem_of_fmap in Ho as ([f|path e] & -> & Hstep).
      - apply Hpasses, Hfiles. by apply methodFiles_steps.
      - by destruct (Hreadable path e). }
    rewrite Hfirst in Hbuild. exact Hbuild.
  - intros before f after keys k keys' Hsteps Hbefore Hmark Hdeclared Hkeys
      Hmissing Hnames.
    assert (Hf : Load f ∈ steps directory).
    { rewrite Hsteps. apply elem_of_app. right. left. }
    rewrite Hsteps, map_app, firstThrow_app in Hbuild.
    assert (Hfirst : firstThrow (map stepOutcome (map Load before)) = Normal tt).
    { apply firstThrow_Normal. intros o Ho.
      apply list_elem_of_fmap in Ho as (step & -> & Hstep).
      apply list_elem_of_fmap in Hstep as (g & -> & Hg).
      apply Hpasses. by apply Hbefore. }
    rewrite Hfirst in Hbuild. simpl in Hbuild.
    rewrite (fileOutcome_marked f Hmark), Hdeclared in Hbuild.
    rewrite (find_first _ keys keys' k) in Hbuild.
    + rewrite Hbuild. unfold message, urlParamMessage.
      apply steps_located in Hf as [-> _]; [reflexivity|exact Hnames].
    + intros k' Hk'. apply negb_false_iff, bool_decide_eq_true, Hpresent.
      by apply Hkeys.
    + apply negb_true_iff, bool_decide_eq_false. by rewrite <- Hpresent.
  - intros Hreadable Hfiles f k Hf Hk Hmissing.
    destruct (firstThrow (map stepOutcome (steps directory))) as [[]|e]
      eqn:Hfirst.
    + destruct Hbuild as [tree Htree].
      destruct (Hchecked tree Htree f Hf) as [_ Hkeys].
      by destruct Hmissing; apply Hkeys.
    + apply firstThrow_Throw in Hfirst.
      apply list_elem_of_fmap in Hfirst as ([f'|path e'] & Hout & Hstep);
        [|by destruct (Hreadable path e')].
      pose proof (proj2 (methodFiles_steps directory f') Hstep) as Hf'.
      destruct (Hfiles f' Hf') as [Hmark Hnames].
      simpl in Hout. rewrite (fileOutcome_marked f' Hmark) in Hout.
      destruct (List.find _ _) as [k'|] eqn:Hfind; [|discriminate].
      apply List.find_some in Hfind as [Hin Hk'].
      apply negb_true_iff, bool_decide_eq_false in Hk'.
      exists f', k'. split; [exact Hf'|].
      split; [by apply list_elem_of_In|].
      split; [by rewrite Hpresent|].
      rewrite Hbuild. injection Hout as ->.
      unfold message, urlParamMessage.
      apply steps_located in Hstep as [-> _]; [reflexivity|exact Hnames].
Qed.

End BuildProperties.

(* ===================================================================== *)
(** * The definitions at work                                             *)
(* ===================================================================== *)

Section Runs.
Import Routes.

(** The tree of the spec's example: [/users/[id]/POST] declaring [id] and
    [extra] fails on [extra]. *)
Example users_id_extra_fails :
  fromDirectory (loader := exporting (ExValue (sampleEndpoint [] ["id"; "extra"])))
    usersDirectory
  = Throw (Error "Endpoint at /users/[id]/POST.ts defines a URL parameter in it's schema (extra) that does not exist in the route path.").
Proof. vm_compute. reflexivity. Qed.

Example users_id_builds :
  exists tree,
    fromDirectory (loader := exporting (ExValue (sampleEndpoint [] ["id"])))
      usersDirectory
    = Normal tree.
Proof.
  pose proof (fromDirectory_outcome
                (loader := exporting (ExValue (sampleEndpoint [] ["id"])))
                usersDirectory) as Hbuild.
  assert (Hsteps : firstThrow
                     (map stepOutcome
                        (steps
                           (loader := exporting (ExValue (sampleEndpoint [] ["id"])))
                           usersDirectory))
                   = Normal tt) by (vm_compute; reflexivity).
  rewrite Hsteps in Hbuild. exact Hbuild.
Qed.

Example users_id_method_file :
  map (fun f => (fileDirectories f, fileName f, filePath f, fileModule f,
                 getAllUrlParams (fileNode f), fileMethod f))
    (methodFiles (loader := exporting (ExValue (sampleEndpoint [] ["id"])))
       usersDirectory)
  = [(["users"; "[id]"], "POST.ts", "users/[id]/POST.ts", "users/[id]/POST",
      ["id"], POST)].
Proof. vm_compute. reflexivity. Qed.

Example matchUrlParam_examples :
  matchUrlParam "[id]" = Some "id" /\ matchUrlParam "users" = None
  /\ matchUrlParam "[]" = None /\ matchUrlParam "[a-b]" = None
  /\ matchUrlParam "[user_id2]" = Some "user_id2".
Proof. vm_compute. repeat split. Qed.

Example path_parse_name_examples :
  path_parse_name "GET.ts" = "GET" /\ path_parse_name "index.test.js" = "index.test"
  /\ path_parse_name ".gitignore" = ".gitignore" /\ path_parse_name "README" = "README"
  /\ path_parse_name ".." = ".." /\ path_parse_name "..." = "..".
Proof. vm_compute. repeat split. Qed.

(** C6, at a method file whose module has no default export.  The export
    does not carry the marker and the build throws, but what it throws is the
    engine's [TypeError] from [isKintEndpoint], which names no path, and not
    the error that identifies the file. *)
Theorem missing_default_export_throws_TypeError :
  fromDirectory (loader := exporting ExUndefined) usersDirectory
  = Throw (TypeError "Cannot read properties of undefined (reading 'builtByKint')")
  /\ fromDirectory (loader := exporting ExUndefined) usersDirectory
     <> Throw (Error (notKintEndpointMessage "users/[id]/POST.ts")).
Proof.
  assert (Hthrow :
            fromDirectory (loader := exporting ExUndefined) usersDirectory
            = Throw (TypeError
                       "Cannot read properties of undefined (reading 'builtByKint')"))
    by (vm_compute; reflexivity).
  split; [exact Hthrow|]. rewrite Hthrow. discriminate.
Qed.

(** The same file with a default export that is an object without the
    marker is refused with the error that names it. *)
Example unmarked_export_names_the_file :
  fromDirectory
    (loader :=
       exporting
         (ExValue (mkEndpoint (imports := sample) VUndefined
                     (mkEndpointDefinition (imports := sample) None None None)
                     (fun _ : unit => ret VUndefined))))
    usersDirectory
  = Throw (Error "Endpoint at route users/[id]/POST.ts is not a Kint endpoint").
Proof. vm_compute. reflexivity. Qed.

(** A default export that carries the marker and has no [endpointDefinition]
    (an object with the two properties [builtByKint] and [data], say) stops
    the build where the definition is read; one without the marker is
    refused before that. *)
Example export_without_definition :
  fromDirectory (loader := exporting (ExNoDefinition (VBool true) false))
    usersDirectory
  = Throw (TypeError "Cannot read properties of undefined (reading 'urlParams')")
  /\ fromDirectory (loader := exporting (ExNoDefinition (VNum 1) false))
       usersDirectory
     = Throw (Error "Endpoint at route users/[id]/POST.ts is not a Kint endpoint").
Proof. split; vm_compute; reflexivity. Qed.

(** What [require] throws, and what [statSync] throws, is what the build
    throws. *)
Example loader_and_stat_errors :
  fromDirectory (loader := modules []) usersDirectory
  = Throw (Error "Cannot find module 'users/[id]/POST'")
  /\ fromDirectory (loader := exporting (ExValue (sampleEndpoint [] [])))
       [FsUnreadable "link" (Error "ENOENT: no such file or directory, stat 'link'");
        FsFile "GET.ts"]
     = Throw (Error "ENOENT: no such file or directory, stat 'link'").
Proof. split; vm_compute; reflexivity. Qed.

Lemma urlParams_keys_checked_against_route_witness :
  (exists tree,
      fromDirectory (loader := exporting (ExValue (sampleEndpoint [] ["id"])))
        usersDirectory
      = Normal tree)
  /\ fromDirectory
       (loader := exporting (ExValue (sampleEndpoint [] ["id"; "extra"])))
       usersDirectory
     = Throw (Error "Endpoint at /users/[id]/POST.ts defines a URL parameter in it's schema (extra) that does not exist in the route path.").
Proof.
  split.
  - apply (urlParams_keys_checked_against_route
             (loader := exporting (ExValue (sampleEndpoint [] ["id"])))
             usersDirectory).
    + intros path e Hin. apply list_elem_of_singleton in Hin. discriminate.
    + intros f Hf. apply list_elem_of_singleton in Hf. subst f.
      split; [reflexivity|].
      intros k Hk. apply list_elem_of_singleton in Hk. subst k.
      eexists. split; [left|]. split; reflexivity.
  - apply (proj1 (proj2 (proj2 (proj2 (proj2 (proj2
             (urlParams_keys_checked_against_route
                (loader := exporting (ExValue (sampleEndpoint [] ["id"; "extra"])))
                usersDirectory))))))
             []
             (mkMethodFile ["users"; "[id]"] "POST.ts" "users/[id]/POST.ts"
                (mkNodeRef "id" true
                   (Some (mkNodeRef "users" false
                            (Some (mkNodeRef "root" false None)))))
                POST "users/[id]/POST"
                (Normal (ExValue (sampleEndpoint [] ["id"; "extra"]))))
             [] ["id"] "extra" []).
    + reflexivity.
    + intros g Hg. by apply elem_of_nil in Hg.
    + reflexivity.
    + reflexivity.
    + intros k Hk. apply list_elem_of_singleton in Hk. subst k.
      eexists. split; [left|]. split; reflexivity.
    + intros (n & Hn & Hparam & Hname).
      repeat (apply elem_of_cons in Hn as [->|Hn]; [discriminate|]).
      by apply elem_of_nil in Hn.
    + repeat constructor; try discriminate;
        intros Hin; repeat (apply elem_of_cons in Hin as [Hin|Hin]; [discriminate|]);
        by apply elem_of_nil in Hin.
Defined.

Lemma first_parse_failure_answers_400_witness :
  createHandlerFromEndpoint (sampleEndpoint ["title"] ["id"]) tt
    (incoming (VObj ∅) (VObj ∅) (VObj {[ "id" := VStr "7" ]}))
  = (mkExchange (mkRequest (VObj ∅) (VObj ∅) (VObj {[ "id" := VStr "7" ]}))
       (mkResponse 400%Z (Some "Bad request: Required"))
       [CallParse RequestBody],
     Normal tt).
Proof.
  apply (first_parse_failure_answers_400 (sampleEndpoint ["title"] ["id"]) tt
           (incoming (VObj ∅) (VObj ∅) (VObj {[ "id" := VStr "7" ]}))).
  reflexivity.
Defined.

Lemma parsed_request_reaches_handler_witness :
  createHandlerFromEndpoint (sampleEndpoint ["title"] ["id"]) tt
    (incoming (VObj {[ "title" := VStr "t"; "more" := VNum 1 ]}) (VObj ∅)
       (VObj {[ "id" := VStr "7" ]}))
  = (mkExchange
       (mkRequest (VObj {[ "title" := VStr "t" ]}) (VObj ∅)
          (VObj {[ "id" := VStr "7" ]}))
       (mkResponse 200%Z (Some "ok"))
       [CallParse RequestBody; CallParse QueryParams; CallParse UrlParams;
        CallHandler; CallNext],
     Normal tt).
Proof.
  apply (parsed_request_reaches_handler (sampleEndpoint ["title"] ["id"]) tt
           (incoming (VObj {[ "title" := VStr "t"; "more" := VNum 1 ]}) (VObj ∅)
              (VObj {[ "id" := VStr "7" ]}))
           (VObj {[ "title" := VStr "t" ]}) (VObj ∅) (VObj {[ "id" := VStr "7" ]}));
    vm_compute; reflexivity.
Defined.

End Runs.

Section KintRuns.
Import Core.

(** C5, as stated, fails: composing two middleware named ["auth"] raises
    nothing.  Construction returns a chain, and the chain serves a request:
    both middleware run and write the same context slot, the write of the
    one added first coming last. *)
Lemma duplicate_name_is_not_rejected :
  let compose :=
    let* k0 := new_method in
    let* k1 := addMiddleware_method k0 auth1 in
    addMiddleware_method k1 auth2 in
  name auth1 = name auth2
  /\ (forall σ' e, compose ∅ <> (σ', Throw e))
  /\ exists σ' k,
       compose ∅ = (σ', Normal k)
       /\ σ' !! k = Some (addMiddleware (addMiddleware Kint_new auth1) auth2)
       /\ buildConfigurableHandler
            (handlerBuilder (addMiddleware (addMiddleware Kint_new auth1) auth2))
            ok "/users" 1%positive ∅
            (mkReqState {[ 1%positive := ordinary ∅ ]} [])
          = (mkReqState {[ 1%positive := ordinary {[ "auth" := VStr "first" ]} ]}
               ["auth"; "auth"; "H"],
             Normal 200%Z).
Proof.
  intros compose.
  assert (Hrun : exists σ' k,
             compose ∅ = (σ', Normal k)
             /\ σ' !! k = Some (addMiddleware (addMiddleware Kint_new auth1) auth2)).
  { subst compose. unfold bind at 1. unfold new_method.
    destruct (construct_run (imports := sample) Kint_new ∅) as [-> _].
    set (k0 := fresh (dom (∅ : gmap loc Kint))).
    set (σ0 := <[k0 := Kint_new]> (∅ : gmap loc Kint)).
    assert (H : σ0 !! k0 = Some Kint_new) by (subst σ0; by rewrite lookup_insert_eq).
    unfold bind at 1. unfold addMiddleware_method at 1.
    rewrite (method_run σ0 k0 Kint_new (fun f => addMiddleware f auth1) H).
    set (k1 := fresh (dom σ0)).
    set (σ1 := <[k1 := addMiddleware Kint_new auth1]> σ0).
    assert (H1 : σ1 !! k1 = Some (addMiddleware Kint_new auth1))
      by (subst σ1; by rewrite lookup_insert_eq).
    unfold addMiddleware_method.
    rewrite (method_run σ1 k1 _ (fun f => addMiddleware f auth2) H1).
    do 2 eexists. split; [reflexivity|]. by rewrite lookup_insert_eq. }
  split; [reflexivity|]. split.
  - intros σ' e. destruct Hrun as (σ'' & k & -> & _). discriminate.
  - destruct Hrun as (σ' & k & Hcompose & Hk). exists σ', k.
    split; [exact Hcompose|]. split; [exact Hk|]. vm_compute. reflexivity.
Qed.

Lemma addMiddleware_never_throws_witness :
  exists (l : loc) (σ' : gmap loc (Kint (imports := sample))),
    addMiddleware_method 1%positive auth2
      {[ 1%positive := addMiddleware Kint_new auth1 ]}
    = (σ', Normal l)
    /\ σ' !! l = Some (addMiddleware (addMiddleware Kint_new auth1) auth2).
Proof.
  apply (addMiddleware_never_throws
           {[ 1%positive := addMiddleware Kint_new auth1 ]} 1%positive
           (addMiddleware Kint_new auth1) auth2).
  reflexivity.
Defined.

Lemma methods_leave_receiver_unchanged_witness :
  exists (l : loc) (σ' : gmap loc (Kint (imports := sample))),
    extendConfig_method 1%positive {[ "auth" := VBool true ]}
      {[ 1%positive := Kint_new ]}
    = (σ', Normal l)
    /\ l <> 1%positive
    /\ σ' !! 1%positive = Some Kint_new.
Proof.
  assert (Hthis : ({[ 1%positive := Kint_new ]} : gmap loc (Kint (imports := sample)))
                  !! 1%positive = Some Kint_new) by reflexivity.
  destruct (methods_leave_receiver_unchanged (imports := sample)
              {[ 1%positive := Kint_new ]} 1%positive Kint_new auth1
              {[ "auth" := VBool true ]} (IsValue ∅) Hthis)
    as [Hcalls _].
  destruct (Hcalls (extendConfig_method 1%positive {[ "auth" := VBool true ]})
              (extendConfig Kint_new {[ "auth" := VBool true ]}))
    as (l & σ' & Hcall & _ & Hl & _ & Hkept & _).
  - right. left.
  - exists l, σ'. auto.
Defined.

Lemma mergedConfig_merge_idempotent_witness :
  let this : Kint (imports := sample) :=
    extendConfig Kint_new
      {[ "auth" := VObj {[ "required" := VBool true; "realm" := VStr "api" ]};
         "cache" := VNum 60 ]} in
  let override : JsObject :=
    {[ "auth" := VObj {[ "required" := VBool false ]}; "log" := VBool true ]} in
  let mergedConfig :=
    meta_config
      (data (defineEndpoint (imports := sample) configOnly (fun _ _ => ok)
               this override)) in
  mergedConfig
  = {[ "auth" := VObj {[ "required" := VBool false; "realm" := VStr "api" ]};
       "cache" := VNum 60; "log" := VBool true ]}
  /\ mergeDefaultWithMissingItems (defaultConfig this) mergedConfig = mergedConfig
  /\ mergedConfig !! "cache" = defaultConfig this !! "cache"
  /\ mergedConfig !! "log" = Some (VBool true).
Proof.
  intros this override mergedConfig.
  destruct (mergedConfig_merge_idempotent (imports := sample)
              configOnly (fun _ _ => ok) this override)
    as (Hmerged & Hidem & Hdefault & Hoverride).
  split; [vm_compute; reflexivity|].
  split; [exact Hidem|].
  split.
  - apply Hdefault. vm_compute. reflexivity.
  - apply Hoverride; [vm_compute; reflexivity | discriminate].
Defined.

(** C10, as stated, fails for a middleware named ["__proto__"].  Its [next],
    called with a truthy object, does not write the context property of that
    name: the object becomes the prototype of the context object, and names
    the context did not have now read what the extension holds. *)
Lemma next_of_proto_named_middleware_replaces_prototype :
  let extension := VObj {[ "isAdmin" := VBool true ]} in
  let middleware := tracing (imports := sample) "__proto__" (Some extension) in
  let before := ordinary {[ "user" := VStr "guest" ]} in
  let after :=
    mkHeapObject {[ "user" := VStr "guest" ]}
      (PlainPrototype {[ "isAdmin" := VBool true ]}) in
  truthy extension = true
  /\ nextFn middleware ok "/users" 1%positive ∅ (Some extension)
       (mkReqState {[ 1%positive := before ]} [])
     = ok "/users" 1%positive ∅ (mkReqState {[ 1%positive := after ]} [])
  /\ buildConfigurableHandler (handlerBuilder (addMiddleware Kint_new middleware))
       ok "/users" 1%positive ∅ (mkReqState {[ 1%positive := before ]} [])
     = (mkReqState {[ 1%positive := after ]} ["__proto__"; "H"], Normal 200%Z)
  /\ own after !! name middleware = None
  /\ prototype after <> prototype before
  /\ readProp before "isAdmin" = Data VUndefined
  /\ readProp after "isAdmin" = Data (VBool true).
Proof.
  repeat split; try (vm_compute; reflexivity). discriminate.
Qed.

Lemma next_writes_only_own_slot_when_truthy_witness :
  let inner := ok in
  let s := mkReqState {[ 1%positive := ordinary {[ "global" := VNum 1 ]} ]} [] in
  nextFn auth1 inner "/users" 1%positive ∅ (Some (VStr "first")) s
  = inner "/users" 1%positive ∅
      (mkReqState
         {[ 1%positive :=
              ordinary {[ "auth" := VStr "first"; "global" := VNum 1 ]} ]} []).
Proof.
  intros inner s.
  destruct (next_writes_only_own_slot_when_truthy (imports := sample)
              Kint_new auth1 inner "/users" 1%positive ∅)
    as [_ Hnext].
  destruct (Hnext (Some (VStr "first")) s)
    as (s' & Hrun & Htrace & _ & Hothers & _ & Hwrite).
  destruct Hwrite as [Hwrite _]; [discriminate|].
  assert (Hs' : s' = mkReqState
                  {[ 1%positive :=
                       ordinary {[ "auth" := VStr "first"; "global" := VNum 1 ]} ]}
                  []).
  { destruct s' as [heap' trace']. simpl in *. f_equal; [|exact Htrace].
    apply map_eq. intros l. destruct (decide (l = 1%positive)) as [->|Hl].
    - rewrite Hwrite by reflexivity. reflexivity.
    - rewrite Hothers by done. by rewrite !lookup_singleton_ne. }
  rewrite <- Hs'. exact Hrun.
Defined.

End KintRuns.

(* ===================================================================== *)
(** * Further properties of the middleware composition                    *)
(* ===================================================================== *)

Section ChainProperties.
Import Core.
Context {imports : Imports}.

Lemma written_app (specs : list (string * option JsValue))
    (spec : string * option JsValue) (o : HeapObject) :
  written (specs ++ [spec]) o = written specs (written [spec] o).
Proof. unfold written. by rewrite foldr_app. Qed.

(** The state in which a chain of tracing middleware on top of [base] runs
    what [base] compiles. *)
Lemma tracing_chain_state (specs : list (string * option JsValue)) (base : Kint)
    (innermost : ConfigurableHandler) (request : KintRequest) (context : loc)
    (config : JsObject) (s : ReqState) :
  buildConfigurableHandler
    (handlerBuilder (addAll base (map (fun p => tracing p.1 p.2) specs)))
    innermost request context config s
  = buildConfigurableHandler (handlerBuilder base) innermost
      request context config
      (mkReqState (alter (written specs) context (heap s))
         (trace s ++ rev (map fst specs))).
Proof.
  revert s. induction specs as [|[nm ext] specs IH] using rev_ind; intros s.
  - simpl. rewrite app_nil_r. unfold written. simpl.
    rewrite alter_id by done. by destruct s.
  - unfold addAll. rewrite map_app, foldl_app. simpl.
    unfold bind at 1. simpl. rewrite nextFn_run. simpl.
    match goal with
    | |- buildConfigurableHandler _ innermost request context config ?s0 = _ =>
        pose proof (IH s0) as Hrun
    end.
    unfold addAll in Hrun. rewrite Hrun. f_equal.
    rewrite map_app, rev_app_distr. simpl.
    destruct (truthy (default VUndefined ext)) eqn:Hext; simpl.
    + f_equal; [|by rewrite <- app_assoc].
      rewrite alter_alter_eq. apply alter_ext. intros o _. simpl.
      rewrite written_app. unfold written at 2. simpl. by rewrite Hext.
    + f_equal; [|by rewrite <- app_assoc].
      apply alter_ext. intros o _.
      rewrite written_app. unfold written at 2. simpl. by rewrite Hext.
Qed.

Lemma written_lookup_other (specs : list (string * option JsValue))
    (o : HeapObject) (n : string) :
  n ∉ map fst specs -> own (written specs o) !! n = own o !! n.
Proof.
  induction specs as [|[nm ext] specs IH]; [done|]. simpl.
  intros Hn. apply not_elem_of_cons in Hn as [Hne Hn].
  destruct (truthy (default VUndefined ext)); [|by apply IH].
  rewrite assign_own_other by done. by apply IH.
Qed.

Lemma written_lookup_first (before after : list (string * option JsValue))
    (n : string) (ext : option JsValue) (o : HeapObject) :
  n ≠ "__proto__" ->
  (forall ext', (n, ext') ∈ before -> truthy (default VUndefined ext') = false) ->
  truthy (default VUndefined ext) = true ->
  own (written (before ++ (n, ext) :: after) o) !! n
  = Some (default VUndefined ext).
Proof.
  intros Hname Hbefore Hext. induction before as [|[nm ext'] before IH]; simpl.
  - rewrite Hext, assign_define by done. simpl. by rewrite lookup_insert_eq.
  - destruct (truthy (default VUndefined ext')) eqn:Hext'.
    + destruct (decide (nm = n)) as [->|Hne].
      * rewrite (Hbefore ext') in Hext' by (by left). discriminate.
      * rewrite assign_own_other by done. apply IH.
        intros e He. apply Hbefore. by right.
    + apply IH. intros e He. apply Hbefore. by right.
Qed.

Lemma written_prototype (specs : list (string * option JsValue)) (o : HeapObject) :
  "__proto__" ∉ map fst specs -> prototype (written specs o) = prototype o.
Proof.
  induction specs as [|[nm ext] specs IH]; [done|]. simpl.
  intros Hn. apply not_elem_of_cons in Hn as [Hne Hn].
  destruct (truthy (default VUndefined ext)); [|by apply IH].
  rewrite assign_define by done. simpl. by apply IH.
Qed.

(** X1. Any number of middleware: for a chain of middleware that log their
    name and call [next], added to a fresh Kint in the order of the list, the
    log of one request holds the names from the last added to the first
    added, and the chain then runs the innermost handler; what the handler
    returns or throws is what the compiled handler returns or throws. *)
Theorem chain_logs_reverse_declaration_order
    (specs : list (string * option JsValue)) (H : ConfigurableHandler)
    (request : KintRequest) (context : loc) (config : JsObject) (s : ReqState) :
  exists s' : ReqState,
    trace s' = trace s ++ rev (map fst specs)
    /\ buildConfigurableHandler
         (handlerBuilder (addAll Kint_new (map (fun p => tracing p.1 p.2) specs)))
         H request context config s
       = H request context config s'.
Proof.
  eexists. split; [|apply tracing_chain_state]. reflexivity.
Qed.

(** X2. What the innermost handler finds in the context object.  Every
    middleware with a name other than ["__proto__"] that passed a truthy
    extension to [next] has it as the own property of its name, provided no
    middleware added before it under the same name passed a truthy extension
    too; own properties named after no middleware, and all other objects, are
    as they were before the request, and so is the prototype of the context
    object when no middleware is named ["__proto__"]. *)
Theorem chain_extensions_reach_innermost_handler
    (specs : list (string * option JsValue)) (H : ConfigurableHandler)
    (request : KintRequest) (context : loc) (config : JsObject) (s : ReqState)
    (o : HeapObject) :
  heap s !! context = Some o ->
  exists (s' : ReqState) (o' : HeapObject),
    buildConfigurableHandler
      (handlerBuilder (addAll Kint_new (map (fun p => tracing p.1 p.2) specs)))
      H request context config s
    = H request context config s'
    /\ heap s' !! context = Some o'
    /\ (forall before n ext after,
          specs = before ++ (n, ext) :: after ->
          n ≠ "__proto__" ->
          (forall ext', (n, ext') ∈ before ->
                        truthy (default VUndefined ext') = false) ->
          truthy (default VUndefined ext) = true ->
          own o' !! n = Some (default VUndefined ext))
    /\ (forall n, n ∉ map fst specs -> own o' !! n = own o !! n)
    /\ ("__proto__" ∉ map fst specs -> prototype o' = prototype o)
    /\ (forall l, l ≠ context -> heap s' !! l = heap s !! l).
Proof.
  intros Ho. eexists. exists (written specs o).
  split; [apply tracing_chain_state|]. simpl.
  split; [by rewrite lookup_alter_eq, Ho|].
  split; [intros before n ext after ->; apply written_lookup_first|].
  split; [intros n; apply written_lookup_other|].
  split; [apply written_prototype|].
  intros l Hl. by rewrite lookup_alter_ne.
Qed.

(** X3. A middleware whose handler does not use [next] ends the chain: the
    middleware added after it run first, in reverse order of declaration,
    then it answers, and neither the middleware added before it nor the
    innermost handler take part in the result. *)
Theorem middleware_without_next_stops_chain (blocker : Middleware)
    (outer : list (string * option JsValue))
    (base1 base2 : Kint) (H1 H2 : ConfigurableHandler)
    (request : KintRequest) (context : loc) (config : JsObject) (s : ReqState) :
  (forall request next1 next2 slot s,
      handler blocker request next1 slot s = handler blocker request next2 slot s) ->
  buildConfigurableHandler
    (handlerBuilder
       (addAll (addMiddleware base1 blocker) (map (fun p => tracing p.1 p.2) outer)))
    H1 request context config s
  = buildConfigurableHandler
      (handlerBuilder
         (addAll (addMiddleware base2 blocker) (map (fun p => tracing p.1 p.2) outer)))
      H2 request context config s
  /\ exists s' : ReqState,
       trace s' = trace s ++ rev (map fst outer)
       /\ buildConfigurableHandler
            (handlerBuilder
               (addAll (addMiddleware base1 blocker)
                  (map (fun p => tracing p.1 p.2) outer)))
            H1 request context config s
          = handler blocker request (fun _ => H1 request context config)
              (getProp config (name blocker)) s'.
Proof.
  intros Hignores. rewrite !tracing_chain_state. simpl.
  split; [apply Hignores|].
  eexists. split; [|apply Hignores]. reflexivity.
Qed.

(** X4. Setting up the config and adding middleware commute: a chain may be
    configured before or after a middleware is added, and the endpoints
    defined on the two chains are the same.  Neither [extendConfig] nor
    [setConfig] touches the handler builder, and [addMiddleware] does not
    touch the default config. *)
Theorem config_and_middleware_commute (this : Kint) (middleware : Middleware)
    (extension : JsObject) (newConfig : FnOrValue) :
  extendConfig (addMiddleware this middleware) extension
    = addMiddleware (extendConfig this extension) middleware
  /\ setConfig (addMiddleware this middleware) newConfig
     = addMiddleware (setConfig this newConfig) middleware
  /\ (forall (H : ConfigurableHandler),
        buildConfigurableHandler
          (handlerBuilder (setConfig (extendConfig this extension) newConfig)) H
        = buildConfigurableHandler (handlerBuilder this) H)
  /\ defaultConfig (addMiddleware this middleware) = defaultConfig this
  /\ (forall (extractParts : DefineEndpointFunctionArgs -> EndpointParts)
             (wrapHandlerWithValidationLayer :
                RawHandler -> ValidatorArray -> ConfigurableHandler)
             (args : DefineEndpointFunctionArgs),
        defineEndpoint extractParts wrapHandlerWithValidationLayer
          (extendConfig (addMiddleware this middleware) extension) args
        = defineEndpoint extractParts wrapHandlerWithValidationLayer
            (addMiddleware (extendConfig this extension) middleware) args).
Proof. repeat split. Qed.

End ChainProperties.

(* ===================================================================== *)
(** * Further properties of the route tree                                *)
(* ===================================================================== *)

Section NamingProperties.
Import Routes.

(** X5. A directory name stands for a URL parameter exactly when it is a
    non-empty word of letters, digits and underscores between square
    brackets, and the parameter is that word. *)
Theorem matchUrlParam_bracketed_word (directoryName word : string) :
  matchUrlParam directoryName = Some word
  <-> directoryName = "[" +:+ word +:+ "]"
      /\ word <> ""
      /\ forallb isWordChar (String.list_ascii_of_string word) = true.
Proof.
  unfold matchUrlParam. split.
  - destruct directoryName as [|c rest]; [discriminate|].
    destruct (Ascii.eqb_spec c "["%char) as [->|Hc].
    2:{ destruct c as [[] [] [] [] [] [] [] []]; try discriminate.
        by destruct Hc. }
    simpl.
    destruct (String.eqb_spec
                (String.substring (String.length rest - 1) 1 rest) "]")
      as [Hlast|]; [|discriminate]. simpl.
    destruct (String.eqb_spec
                (String.substring 0 (String.length rest - 1) rest) "")
      as [|Hword]; [discriminate|]. simpl.
    destruct (forallb _ _) eqn:Hchars; [|discriminate].
    intros [= <-]. split; [|done].
    assert (Hlen : String.length rest <> 0)
      by (intros E; destruct rest; [discriminate Hlast|discriminate E]).
    pose proof (substring_split rest (String.length rest - 1)) as Hsplit.
    replace (String.length rest - (String.length rest - 1)) with 1 in Hsplit
      by lia.
    rewrite Hlast in Hsplit.
    change (String "[" rest
            = String "[" (String.substring 0 (String.length rest - 1) rest
                          +:+ "]")).
    f_equal. apply Hsplit. lia.
  - intros (-> & Hword & Hchars).
    change ("[" +:+ word +:+ "]") with (String "["%char (word +:+ "]")).
    cbv beta iota.
    rewrite string_length_app. simpl.
    replace (String.length word + 1 - 1) with (String.length word) by lia.
    rewrite substring_suffix, substring_prefix. simpl.
    destruct (String.eqb_spec word "") as [|_]; [done|]. simpl.
    by rewrite Hchars.
Qed.

(** X6. A file is a method file exactly when its name is one of the five
    verbs in capitals followed by ".ts" or ".js"; the method is that verb. *)
Theorem matchHttpMethod_verb_and_extension (currentFileName : string)
    (method : Method) :
  matchHttpMethod currentFileName = Some method
  <-> currentFileName = methodName method +:+ ".ts"
      \/ currentFileName = methodName method +:+ ".js".
Proof.
  split.
  - unfold matchHttpMethod.
    repeat match goal with
           | |- context [String.eqb currentFileName ?b] =>
               destruct (String.eqb_spec currentFileName b) as [->|?]; simpl
           end;
      first [discriminate | intros [= <-]; auto].
  - destruct method; intros [->| ->]; reflexivity.
Qed.

(** X7. A sub-route points back to the node it was created from and inherits
    its URL parameters, adding its own name in front when it is a parameter
    directory.  Its name is the directory name, without the brackets for a
    parameter directory. *)
Theorem createSubRoute_inherits_url_params (this : NodeRef) (directoryName : string) :
  let sub := createSubRoute this directoryName in
  parent sub = Some this
  /\ getAllUrlParams sub
     = (if isUrlParam sub then [name sub] else []) ++ getAllUrlParams this
  /\ (forall k, k ∈ getAllUrlParams this -> k ∈ getAllUrlParams sub)
  /\ (if isUrlParam sub
      then directoryName = "[" +:+ name sub +:+ "]"
      else name sub = directoryName).
Proof.
  unfold createSubRoute.
  destruct (matchUrlParam directoryName) as [word|] eqn:Hmatch; simpl.
  - split; [reflexivity|]. split; [reflexivity|].
    split; [intros k Hk; by right|].
    by apply matchUrlParam_Some_brackets.
  - repeat split; auto.
Qed.

End NamingProperties.

Section TreeProperties.
Import Routes.
Context {imports : Imports}.
Context {C : Type}.
Context {loader : Loader C}.

(** Induction on a route tree, with the hypothesis for every sub-route. *)
Lemma RouteTreeNode_subRoutes_ind (P : RouteTreeNode C -> Prop) :
  (forall self subs res, Forall P subs -> P (mkRouteTreeNode self subs res)) ->
  forall node, P node.
Proof.
  intros Hnode. fix IH 1. intros [self subs res].
  apply Hnode. induction subs as [|sub rest IHrest].
  - constructor.
  - constructor; [apply IH | exact IHrest].
Qed.

Lemma getRootDirectory_parent (this : NodeRef) :
  parent (getRootDirectory this) = None.
Proof.
  revert this. fix IH 1. intros [nm isParam [p|]]; simpl; [apply IH|reflexivity].
Qed.

Lemma getRootDirectory_last (this : NodeRef) :
  last (pathToRoot this) = Some (getRootDirectory this).
Proof.
  revert this. fix IH 1. intros [nm isParam [p|]]; [|reflexivity].
  change (last (mkNodeRef nm isParam (Some p) :: pathToRoot p)
          = Some (getRootDirectory p)).
  rewrite <- (IH p). by destruct p.
Qed.

Lemma getRootDirectory_createSubRoute (this : NodeRef) (directoryName : string) :
  getRootDirectory (createSubRoute this directoryName) = getRootDirectory this.
Proof. unfold createSubRoute. by destruct (matchUrlParam directoryName). Qed.

Lemma stepsOfEntry_root (entry : FsEntry) :
  forall (this : NodeRef) (rel : string) (directories : list string)
         (f : MethodFile C),
    Load f ∈ stepsOfEntry this rel directories entry ->
    getRootDirectory (fileNode f) = getRootDirectory this.
Proof.
  induction entry as [nm contents IH|nm|nm err] using FsEntry_contents_ind;
    intros this rel directories f Hf; simpl in Hf.
  - apply list_elem_of_In, in_flat_map in Hf as (entry & Hentry & Hf).
    rewrite Forall_forall in IH.
    rewrite (IH entry (proj2 (list_elem_of_In _ _) Hentry) _ _ _ f
               (proj2 (list_elem_of_In _ _) Hf)).
    apply getRootDirectory_createSubRoute.
  - destruct (matchHttpMethod nm); [|by apply elem_of_nil in Hf].
    apply list_elem_of_singleton in Hf. by injection Hf as ->.
  - apply list_elem_of_singleton in Hf. discriminate.
Qed.

(** X8. [getRootDirectory] ends at the node without a parent that closes the
    path to the root, is unchanged by applying it again, and is the same for
    a node and its sub-routes; every method file a build meets lies under
    the node named "root". *)
Theorem getRootDirectory_is_end_of_path (this : NodeRef) :
  parent (getRootDirectory this) = None
  /\ last (pathToRoot this) = Some (getRootDirectory this)
  /\ getRootDirectory (getRootDirectory this) = getRootDirectory this
  /\ (forall directoryName,
        getRootDirectory (createSubRoute this directoryName)
        = getRootDirectory this)
  /\ (forall (directory : list FsEntry) (f : MethodFile C),
        f ∈ methodFiles directory ->
        getRootDirectory (fileNode f) = mkNodeRef "root" false None).
Proof.
  split; [apply getRootDirectory_parent|].
  split; [apply getRootDirectory_last|].
  split.
  { pose proof (getRootDirectory_parent this) as Hp.
    destruct (getRootDirectory this) as [nm b [p|]]; [discriminate|reflexivity]. }
  split; [apply getRootDirectory_createSubRoute|].
  intros directory f Hf. apply methodFiles_steps in Hf. unfold steps in Hf.
  apply list_elem_of_In, in_flat_map in Hf as (entry & _ & Hf).
  by rewrite (stepsOfEntry_root entry _ _ _ f
                (proj2 (list_elem_of_In _ _) Hf)).
Qed.

(** When every entry can be read, the steps are the loads of the method
    files. *)
Lemma readable_steps (directory : list FsEntry) :
  readable directory -> steps directory = map Load (methodFiles directory).
Proof.
  unfold readable, methodFiles. generalize (steps directory). intros l Hl.
  induction l as [|[f|path e] l IH]; [reflexivity| |].
  - simpl. f_equal. apply IH. intros path e Hin. apply (Hl path e). by right.
  - destruct (Hl path e). by left.
Qed.

(** X9. A build throws what the first failing step of the traversal throws,
    be it a method file that fails to load or to pass the check, or an entry
    that cannot be read; the steps after it play no part.  When every entry
    can be read, the steps are the method files. *)
Theorem build_throws_first_failure (directory : list FsEntry) (e : JsError) :
  (forall (before after : list (Step C)) (step : Step C),
      steps directory = before ++ step :: after ->
      (forall g, g ∈ before -> stepOutcome g = Normal tt) ->
      stepOutcome step = Throw e ->
      fromDirectory directory = Throw e)
  /\ (forall (before after : list (MethodFile C)) (f : MethodFile C),
        readable directory ->
        methodFiles directory = before ++ f :: after ->
        (forall g, g ∈ before -> fileOutcome g = Normal tt) ->
        fileOutcome f = Throw e ->
        fromDirectory directory = Throw e).
Proof.
  assert (Hsteps : forall (before after : list (Step C)) (step : Step C),
             steps directory = before ++ step :: after ->
             (forall g, g ∈ before -> stepOutcome g = Normal tt) ->
             stepOutcome step = Throw e ->
             fromDirectory directory = Throw e).
  { intros before after step Hsteps Hbefore Hstep.
    pose proof (fromDirectory_outcome directory) as Hbuild.
    rewrite Hsteps, map_app, firstThrow_app in Hbuild.
    assert (Hok : firstThrow (map stepOutcome before) = Normal tt).
    { apply firstThrow_Normal. intros o Ho.
      apply list_elem_of_fmap in Ho as (g & -> & Hg). by apply Hbefore. }
    rewrite Hok in Hbuild. simpl in Hbuild. by rewrite Hstep in Hbuild. }
  split; [exact Hsteps|].
  intros before after f Hreadable Hfiles Hbefore Hf.
  apply (Hsteps (map Load before) (map Load after) (Load f)).
  - rewrite (readable_steps directory Hreadable), Hfiles, map_app. reflexivity.
  - intros g Hg. apply list_elem_of_fmap in Hg as (g' & -> & Hg').
    by apply Hbefore.
  - exact Hf.
Qed.

(** X11. A build returns a tree exactly when every entry can be read and
    every method file exports an endpoint, a value with an
    [endpointDefinition], that carries the marker and declares only URL
    parameters of its route. *)
Theorem build_succeeds_iff_every_file_passes (directory : list FsEntry) :
  (exists tree, fromDirectory directory = Normal tree)
  <-> readable directory /\
      forall f, f ∈ methodFiles directory ->
        marked f
        /\ forall k, k ∈ declaredUrlParams f -> k ∈ getAllUrlParams (fileNode f).
Proof.
  pose proof (fromDirectory_outcome directory) as Hbuild. split.
  - intros [tree Htree].
    pose proof (fromDirectory_Normal_steps directory tree Htree) as Hsteps.
    split.
    + intros path e Hin. specialize (Hsteps _ Hin). discriminate.
    + intros f Hf. apply fileOutcome_Normal.
      apply (Hsteps (Load f)). by apply methodFiles_steps.
  - intros [Hreadable Hall].
    assert (Hfirst : firstThrow (map stepOutcome (steps directory)) = Normal tt).
    { apply firstThrow_Normal. intros o Ho.
      apply list_elem_of_fmap in Ho as ([f|path e] & -> & Hstep).
      - apply fileOutcome_Normal, Hall. by apply methodFiles_steps.
      - by destruct (Hreadable path e). }
    by rewrite Hfirst in Hbuild.
Qed.

End TreeProperties.

Section ShapeProperties.
Import Routes.
Context {imports : Imports}.
Context {C : Type}.
Context {loader : Loader C}.

(** What one directory entry adds to the node being filled in. *)
Lemma populateWithEntry_fields (this : NodeRef) (rel : string) (entry : FsEntry)
    (node node' : NodeFields C) :
  populateWithEntry this rel entry node = (node', Normal tt) ->
  match entry with
  | FsDirectory nm contents =>
      exists child,
        forEach (populateWithEntry (createSubRoute this nm) (path_join rel nm))
          contents (mkNodeFields [] ∅) = (child, Normal tt)
        /\ node'
           = mkNodeFields
               (subRoutes node ++
                [mkRouteTreeNode (createSubRoute this nm) (subRoutes child)
                   (resource child)])
               (resource node)
  | FsFile nm =>
      match matchHttpMethod nm with
      | Some method =>
          exists endpoint,
            require (path_join rel (methodName method)) = Normal (ExValue endpoint)
            /\ builtByKint endpoint = VBool true
            /\ (forall def, urlParams (endpointDefinition endpoint) = Some def ->
                  forall k, k ∈ zodKeys (toZodObject def) ->
                            k ∈ getAllUrlParams this)
            /\ node'
               = mkNodeFields (subRoutes node)
                   (<[method := endpoint]> (resource node))
      | None => node' = node
      end
  | FsUnreadable _ _ => False
  end.
Proof.
  destruct entry as [nm contents|nm|nm err]; simpl.
  - destruct (forEach _ contents _) as [child [[]|e]]; [|discriminate].
    intros [= <-]. eauto.
  - destruct (matchHttpMethod nm) as [method|] eqn:Hmatch; [|by intros [= <-]].
    unfold moduleNameOf. rewrite (path_parse_name_method nm method Hmatch).
    unfold bindMethodFile, bind, ending.
    destruct (require (path_join rel (methodName method)))
      as [[| |marker isNull|endpoint]|err]; simpl; try discriminate.
    { by destruct (strictlyTrue marker). }
    destruct (strictlyTrue (builtByKint endpoint)) eqn:Hmark; [|discriminate].
    apply strictlyTrue_spec in Hmark.
    destruct (urlParams (endpointDefinition endpoint)) as [def|] eqn:Hdef.
    + rewrite checkUrlParams_run.
      destruct (List.find _ _) as [k|] eqn:Hfind; [discriminate|].
      intros [= <-]. exists endpoint.
      split; [reflexivity|]. split; [exact Hmark|]. split; [|reflexivity].
      intros def' Hdef' k Hk. assert (def' = def) as -> by congruence.
      pose proof (List.find_none _ _ Hfind k) as Hnone. simpl in Hnone.
      apply list_elem_of_In in Hk. specialize (Hnone Hk).
      by apply negb_false_iff, bool_decide_eq_true in Hnone.
    + intros [= <-]. exists endpoint.
      split; [reflexivity|]. split; [exact Hmark|]. split; [|reflexivity].
      congruence.
  - discriminate.
Qed.

(** What a directory adds to the node being filled in: a sub-route for every
    subdirectory, and for every method with a method file the endpoint of
    the module named after the method. *)
Lemma populateWithDirectoryContents_fields (this : NodeRef) (rel : string)
    (contents : list FsEntry) :
  forall node node' : NodeFields C,
    populateWithDirectoryContents this rel contents node = (node', Normal tt) ->
    map nodeSelf (subRoutes node')
    = map nodeSelf (subRoutes node)
      ++ map (createSubRoute this) (directoryNames contents)
    /\ forall method,
         (method ∈ directMethods contents ->
          exists endpoint,
            require (path_join rel (methodName method)) = Normal (ExValue endpoint)
            /\ resource node' !! method = Some endpoint)
         /\ (method ∉ directMethods contents ->
             resource node' !! method = resource node !! method).
Proof.
  unfold populateWithDirectoryContents.
  induction contents as [|entry rest IH]; intros node node'.
  - intros [= <-]. simpl. rewrite app_nil_r. split; [reflexivity|].
    intros method. split; [|reflexivity].
    intros Hin. by apply elem_of_nil in Hin.
  - rewrite forEach_cons.
    destruct (populateWithEntry this rel entry node) as [mid [[]|e]] eqn:Hentry;
      [|discriminate].
    intros Hrest. apply IH in Hrest as [Hsubs Hres].
    apply populateWithEntry_fields in Hentry.
    destruct entry as [nm contents|nm|nm err]; [| |done].
    + destruct Hentry as (child & _ & ->). simpl in *.
      rewrite Hsubs, map_app. simpl. rewrite <- app_assoc.
      split; [reflexivity|]. exact Hres.
    + unfold directoryNames, directMethods in *. simpl omap.
      destruct (matchHttpMethod nm) as [method|].
      * destruct Hentry as (endpoint & Hrequire & _ & _ & ->). simpl in *.
        split; [exact Hsubs|]. intros method'.
        destruct (Hres method') as [Hin Hout].
        destruct (decide (method' ∈
                            omap (fun entry =>
                                    match entry with
                                    | FsFile currentFileName =>
                                        matchHttpMethod currentFileName
                                    | _ => None
                                    end) rest)) as [Hrest|Hrest].
        -- split; [intros _; by apply Hin|].
           intros Hnot. destruct Hnot. by right.
        -- rewrite (Hout Hrest). split.
           ++ intros Hcons. apply elem_of_cons in Hcons as [->|Hcons]; [|done].
              exists endpoint. split; [exact Hrequire|].
              by rewrite lookup_insert_eq.
           ++ intros Hnot. apply not_elem_of_cons in Hnot as [Hne _].
              by rewrite lookup_insert_ne.
      * subst mid. split; [exact Hsubs|exact Hres].
Qed.

(** X13. The sub-routes of a node are the subdirectories of its directory,
    one for one and in the order of the directory listing, each created by
    [createSubRoute] from its name; files add no sub-route. *)
Theorem subRoutes_mirror_subdirectories (this : NodeRef) (rel : string)
    (contents : list FsEntry) (node' : NodeFields C) :
  populateWithDirectoryContents this rel contents (mkNodeFields [] ∅)
    = (node', Normal tt) ->
  map nodeSelf (subRoutes node') = map (createSubRoute this) (directoryNames contents)
  /\ length (subRoutes node') = length (directoryNames contents).
Proof.
  intros Hrun. apply populateWithDirectoryContents_fields in Hrun as [Hsubs _].
  simpl in Hsubs. split; [exact Hsubs|].
  by rewrite <- (length_map nodeSelf), Hsubs, length_map.
Qed.

(** X14. The endpoint bound for a method is the default export of the
    module named by the directory's path and the method, without extension:
    method files of one directory that stand for the same method (GET.ts and
    GET.js) name the same module, and which file that module is read from is
    for [require] to say.  A method without a method file is not bound, and
    the order of the directory listing plays no part in what is bound. *)
Theorem bound_endpoint_is_required_module (this : NodeRef) (rel : string)
    (contents : list FsEntry) (node' : NodeFields C) :
  populateWithDirectoryContents this rel contents (mkNodeFields [] ∅)
    = (node', Normal tt) ->
  (forall method,
      method ∈ directMethods contents ->
      exists endpoint,
        require (path_join rel (methodName method)) = Normal (ExValue endpoint)
        /\ resource node' !! method = Some endpoint)
  /\ (forall method,
        method ∉ directMethods contents -> resource node' !! method = None)
  /\ (forall (listing : list FsEntry) (node'' : NodeFields C),
        listing ≡ₚ contents ->
        populateWithDirectoryContents this rel listing (mkNodeFields [] ∅)
          = (node'', Normal tt) ->
        resource node'' = resource node').
Proof.
  intros Hrun. apply populateWithDirectoryContents_fields in Hrun as [_ Hres].
  split; [intros method; apply Hres|].
  split; [intros method Hnot; by rewrite (proj2 (Hres method) Hnot)|].
  intros listing node'' Hperm Hrun'.
  apply populateWithDirectoryContents_fields in Hrun' as [_ Hres'].
  assert (Hmethods : directMethods listing ≡ₚ directMethods contents).
  { unfold directMethods. by apply omap_Permutation. }
  apply map_eq. intros method.
  destruct (decide (method ∈ directMethods contents)) as [Hin|Hnot].
  - destruct (proj1 (Hres method) Hin) as (endpoint & Hrequire & ->).
    rewrite <- Hmethods in Hin.
    destruct (proj1 (Hres' method) Hin) as (endpoint' & Hrequire' & ->).
    congruence.
  - rewrite (proj2 (Hres method) Hnot).
    rewrite <- Hmethods in Hnot. by rewrite (proj2 (Hres' method) Hnot).
Qed.

End ShapeProperties.

Section InvariantProperties.
Import Routes.
Context {imports : Imports}.
Context {C : Type}.
Context {loader : Loader C}.

Lemma wellFormed_inv (self : NodeRef) (subs : list (RouteTreeNode C))
    (res : gmap Method (Endpoint C)) :
  wellFormed (mkRouteTreeNode self subs res) ->
  (forall method endpoint,
      res !! method = Some endpoint ->
      builtByKint endpoint = VBool true /\
      forall def, urlParams (endpointDefinition endpoint) = Some def ->
        forall k, k ∈ zodKeys (toZodObject def) -> k ∈ getAllUrlParams self)
  /\ Forall (fun sub => parent (nodeSelf sub) = Some self) subs
  /\ Forall wellFormed subs.
Proof. inversion 1; subst. auto. Qed.

Lemma wellFormed_empty (self : NodeRef) :
  wellFormed (mkRouteTreeNode (C := C) self [] ∅).
Proof.
  constructor; [|constructor|constructor].
  intros method endpoint Hlookup. by rewrite lookup_empty in Hlookup.
Qed.

Lemma createSubRoute_parent (this : NodeRef) (directoryName : string) :
  parent (createSubRoute this directoryName) = Some this.
Proof. unfold createSubRoute. by destruct (matchUrlParam directoryName). Qed.

(** The traversal keeps the invariant of the node it fills in. *)
Lemma populateWithEntry_wellFormed (entry : FsEntry) :
  forall (this : NodeRef) (rel : string) (node node' : NodeFields C),
    populateWithEntry this rel entry node = (node', Normal tt) ->
    wellFormed (mkRouteTreeNode this (subRoutes node) (resource node)) ->
    wellFormed (mkRouteTreeNode this (subRoutes node') (resource node')).
Proof.
  induction entry as [nm contents IH|nm|nm err] using FsEntry_contents_ind;
    intros this rel node node' Hrun Hnode;
    apply populateWithEntry_fields in Hrun;
    apply wellFormed_inv in Hnode as (Hres & Hparents & Hsubs).
  - destruct Hrun as (child & Hchild & ->). simpl.
    set (sub := createSubRoute this nm) in *.
    assert (Hloop : forall start final : NodeFields C,
               forEach (populateWithEntry sub (path_join rel nm)) contents start
               = (final, Normal tt) ->
               wellFormed (mkRouteTreeNode sub (subRoutes start) (resource start)) ->
               wellFormed (mkRouteTreeNode sub (subRoutes final) (resource final))).
    { clear Hchild. induction IH as [|entry rest Hentry _ IHrest];
        intros start final.
      - by intros [= <-].
      - rewrite forEach_cons.
        destruct (populateWithEntry sub (path_join rel nm) entry start)
          as [mid [[]|e]] eqn:Hmid; [|discriminate].
        intros Hrest Hstart. apply (IHrest mid final Hrest).
        by apply (Hentry sub (path_join rel nm) start mid). }
    constructor; [exact Hres| |].
    + apply Forall_app. split; [exact Hparents|].
      constructor; [|constructor]. apply createSubRoute_parent.
    + apply Forall_app. split; [exact Hsubs|].
      constructor; [|constructor].
      apply (Hloop (mkNodeFields [] ∅) child Hchild), wellFormed_empty.
  - destruct (matchHttpMethod nm) as [method|].
    + destruct Hrun as (endpoint & _ & Hmark & Hkeys & ->). simpl.
      constructor; [|exact Hparents|exact Hsubs].
      intros method' endpoint' Hlookup.
      destruct (decide (method = method')) as [<-|Hne].
      * rewrite lookup_insert_eq in Hlookup. injection Hlookup as <-. auto.
      * rewrite lookup_insert_ne in Hlookup by done.
        exact (Hres method' endpoint' Hlookup).
    + subst node'. by constructor.
  - done.
Qed.

Lemma fromDirectory_wellFormed (directory : list FsEntry)
    (tree : RouteTreeNode C) :
  fromDirectory directory = Normal tree ->
  wellFormed tree /\ nodeSelf tree = mkNodeRef "root" false None.
Proof.
  unfold fromDirectory, populateWithDirectoryContents.
  set (root := mkNodeRef "root" false None).
  assert (Hloop : forall start final : NodeFields C,
             forEach (populateWithEntry root "./") directory start
             = (final, Normal tt) ->
             wellFormed (mkRouteTreeNode root (subRoutes start) (resource start)) ->
             wellFormed (mkRouteTreeNode root (subRoutes final) (resource final))).
  { induction directory as [|entry rest IH]; intros start final.
    - by intros [= <-].
    - rewrite forEach_cons.
      destruct (populateWithEntry root "./" entry start) as [mid [[]|e]] eqn:Hmid;
        [|discriminate].
      intros Hrest Hstart. apply (IH mid final Hrest).
      by apply (populateWithEntry_wellFormed entry root "./" start mid). }
  destruct (forEach _ directory _) as [final [[]|e]] eqn:Hrun; [|discriminate].
  intros [= <-]. split; [|reflexivity].
  apply (Hloop (mkNodeFields [] ∅) final Hrun), wellFormed_empty.
Qed.

(** X15. The tree a build returns keeps the invariant of the data model at
    every node: each bound endpoint carries the marker and declares only
    URL parameters found between its node and the root, and each sub-route
    has its node as parent.  The top node is the parentless node "root". *)
Theorem built_tree_is_well_formed (directory : list FsEntry)
    (tree : RouteTreeNode C) :
  fromDirectory directory = Normal tree ->
  wellFormed tree
  /\ nodeSelf tree = mkNodeRef "root" false None
  /\ getAllUrlParams (nodeSelf tree) = [].
Proof.
  intros Hbuild. apply fromDirectory_wellFormed in Hbuild as [Hwf Hroot].
  split; [exact Hwf|]. split; [exact Hroot|]. by rewrite Hroot.
Qed.

Lemma getAllUrlParams_parent (n p : NodeRef) :
  parent n = Some p ->
  getAllUrlParams n = (if isUrlParam n then [name n] else []) ++ getAllUrlParams p.
Proof. destruct n as [nm b [q|]]; simpl; [by intros [= ->]|discriminate]. Qed.

Lemma boundEndpoints_node (mounts : list string) (self : NodeRef)
    (subs : list (RouteTreeNode C)) (res : gmap Method (Endpoint C)) :
  boundEndpoints mounts (mkRouteTreeNode self subs res)
  = omap (fun verb => (fun endpoint => (mounts, verb, endpoint)) <$> res !! verb)
      verbOrder
    ++ flat_map
         (fun sub => boundEndpoints (mounts ++ [routePath (nodeSelf sub)]) sub)
         subs.
Proof. reflexivity. Qed.

(** In a well-formed tree the URL parameters an endpoint declares are among
    the mounts that lead to it. *)
Lemma wellFormed_mounts_capture (tree : RouteTreeNode C) :
  wellFormed tree ->
  forall mounts : list string,
    (forall k, k ∈ getAllUrlParams (nodeSelf tree) -> "/:" +:+ k ∈ mounts) ->
    forall path verb endpoint,
      (path, verb, endpoint) ∈ boundEndpoints mounts tree ->
      forall def k,
        urlParams (endpointDefinition endpoint) = Some def ->
        k ∈ zodKeys (toZodObject def) -> "/:" +:+ k ∈ path.
Proof.
  induction tree as [self subs res IH] using RouteTreeNode_subRoutes_ind.
  intros Hwf mounts Hmounts path verb endpoint Hin def k Hdef Hk.
  apply wellFormed_inv in Hwf as (Hres & Hparents & Hsubs).
  rewrite boundEndpoints_node in Hin. simpl in Hmounts.
  apply elem_of_app in Hin as [Hin|Hin].
  - apply list_elem_of_omap in Hin as (verb' & _ & Hin).
    destruct (res !! verb') as [endpoint'|] eqn:Hlookup; [|discriminate].
    injection Hin as <- <- <-.
    apply Hmounts. by apply (proj2 (Hres verb' endpoint' Hlookup) def).
  - apply list_elem_of_In, in_flat_map in Hin as (sub & Hsub & Hin).
    apply list_elem_of_In in Hsub, Hin.
    rewrite Forall_forall in IH, Hparents, Hsubs.
    apply (IH sub Hsub (Hsubs sub Hsub) (mounts ++ [routePath (nodeSelf sub)]))
      with verb endpoint def; auto.
    intros k' Hk'. rewrite (getAllUrlParams_parent _ _ (Hparents sub Hsub)) in Hk'.
    apply elem_of_app. apply elem_of_app in Hk' as [Hk'|Hk']; [right|left; auto].
    unfold routePath. destruct (isUrlParam (nodeSelf sub)).
    + apply list_elem_of_singleton in Hk'. subst k'. by left.
    + by apply elem_of_nil in Hk'.
Qed.

(** X16. In a tree returned by a build, every URL parameter that the schema
    of a bound endpoint declares is captured on the way to the endpoint:
    one of the mount paths from the top router to the router of its node is
    ["/:"] followed by the key. *)
Theorem declared_url_params_are_mounted (directory : list FsEntry)
    (tree : RouteTreeNode C) :
  fromDirectory directory = Normal tree ->
  forall path verb endpoint def k,
    (path, verb, endpoint) ∈ boundEndpoints [] tree ->
    urlParams (endpointDefinition endpoint) = Some def ->
    k ∈ zodKeys (toZodObject def) ->
    "/:" +:+ k ∈ path.
Proof.
  intros Hbuild path verb endpoint def k Hin Hdef Hk.
  apply fromDirectory_wellFormed in Hbuild as [Hwf Hroot].
  apply (wellFormed_mounts_capture tree Hwf [])
    with verb endpoint def; auto.
  rewrite Hroot. simpl. intros k' Hk'. by apply elem_of_nil in Hk'.
Qed.

End InvariantProperties.

Section RouterProperties.
Import Routes.
Context {imports : Imports}.
Context {C : Type}.

(** The verb layers [applyResource] registers for a resource. *)
Lemma applyResource_run (res : gmap Method (Endpoint C)) (context : C)
    (router : list Layer) :
  applyResource res context router
  = (router ++
     omap (fun verb =>
             (fun endpoint =>
                VerbLayer verb "/" (createHandlerFromEndpoint endpoint context))
             <$> res !! verb)
       verbOrder,
     Normal tt).
Proof.
  unfold applyResource, bind, registerIfBound, router_verb, modify, ret, verbOrder.
  simpl.
  destruct (res !! GET), (res !! PUT), (res !! POST), (res !! PATCH),
    (res !! DELETE); simpl; rewrite <- ?app_assoc, ?app_nil_r; reflexivity.
Qed.

Lemma forEach_router_use {A : Type} (path : A -> string)
    (subRouter : A -> list Layer) (subs : list A) (router : list Layer) :
  forEach (fun sub => router_use (path sub) (subRouter sub)) subs router
  = (router ++ map (fun sub => UseLayer (path sub) (subRouter sub)) subs,
     Normal tt).
Proof.
  revert router. induction subs as [|sub rest IH]; intros router.
  - simpl. by rewrite app_nil_r.
  - rewrite forEach_cons. unfold router_use at 1, modify.
    rewrite IH. simpl. by rewrite <- app_assoc.
Qed.

(** The router of a node, layer by layer. *)
Lemma toExpressRouter_layers (context : C) (currentPath : string)
    (self : NodeRef) (subs : list (RouteTreeNode C))
    (res : gmap Method (Endpoint C)) :
  toExpressRouter context currentPath (mkRouteTreeNode self subs res)
  = omap (fun verb =>
            (fun endpoint =>
               VerbLayer verb "/" (createHandlerFromEndpoint endpoint context))
            <$> res !! verb)
      verbOrder
    ++ map (fun sub =>
              UseLayer (routePath (nodeSelf sub))
                (toExpressRouter context
                   (currentPath +:+ "/" +:+ name (nodeSelf sub)) sub))
         subs.
Proof.
  change (toExpressRouter context currentPath (mkRouteTreeNode self subs res))
    with ((bind (applyResource res context) (fun _ =>
             forEach (fun sub =>
               router_use (routePath (nodeSelf sub))
                 (toExpressRouter context
                    (currentPath +:+ "/" +:+ name (nodeSelf sub)) sub))
               subs) []).1).
  unfold bind. rewrite applyResource_run, forEach_router_use. reflexivity.
Qed.

(** X17. The router of a node holds first one handler for each method the
    node binds, at its own path "/", in the order GET, PUT, POST, PATCH,
    DELETE, each compiled from the bound endpoint with the shared context,
    and then one mount per sub-route in the order of the sub-routes, at "/"
    and the sub-route's name, with ":" in between for a URL parameter.  A
    node without endpoints and sub-routes gets an empty router. *)
Theorem router_holds_verbs_then_mounts (context : C) (currentPath : string)
    (self : NodeRef) (subs : list (RouteTreeNode C))
    (res : gmap Method (Endpoint C)) :
  let router := toExpressRouter context currentPath (mkRouteTreeNode self subs res) in
  router
  = omap (fun verb =>
            (fun endpoint =>
               VerbLayer verb "/" (createHandlerFromEndpoint endpoint context))
            <$> res !! verb)
      [GET; PUT; POST; PATCH; DELETE]
    ++ map (fun sub =>
              UseLayer
                ("/" +:+ (if isUrlParam (nodeSelf sub) then ":" else "")
                 +:+ name (nodeSelf sub))
                (toExpressRouter context
                   (currentPath +:+ "/" +:+ name (nodeSelf sub)) sub))
         subs
  /\ (forall verb path handler,
        VerbLayer verb path handler ∈ router
        <-> exists endpoint,
              res !! verb = Some endpoint /\ path = "/"
              /\ handler = createHandlerFromEndpoint endpoint context)
  /\ (res = ∅ -> subs = [] -> router = []).
Proof.
  intros router. subst router. rewrite toExpressRouter_layers.
  split; [reflexivity|]. split.
  - intros verb path handler. rewrite elem_of_app, list_elem_of_omap. split.
    + intros [(verb' & _ & Hlayer)|Hin].
      * destruct (res !! verb') as [endpoint|] eqn:Hlookup; [|discriminate].
        injection Hlayer as <- <- <-. eauto.
      * apply list_elem_of_fmap in Hin as (sub & Hsub & _). discriminate.
    + intros (endpoint & Hlookup & -> & ->). left. exists verb.
      split; [|by rewrite Hlookup].
      unfold verbOrder. destruct verb; set_solver.
  - intros -> ->. reflexivity.
Qed.

Lemma map_flat_map {A B D : Type} (f : B -> D) (g : A -> list B) (l : list A) :
  map f (flat_map g l) = flat_map (fun x => map f (g x)) l.
Proof.
  induction l as [|x l IH]; simpl; [reflexivity|]. by rewrite map_app, IH.
Qed.

Lemma flat_map_map {A B D : Type} (f : A -> B) (g : B -> list D) (l : list A) :
  flat_map g (map f l) = flat_map (fun x => g (f x)) l.
Proof. induction l as [|x l IH]; simpl; [reflexivity|]. by rewrite IH. Qed.

Lemma flat_map_ext_Forall {A B : Type} (f g : A -> list B) (l : list A) :
  Forall (fun x => f x = g x) l -> flat_map f l = flat_map g l.
Proof. induction 1 as [|x l Hx _ IH]; simpl; [reflexivity|]. by rewrite Hx, IH. Qed.

(** X18. The compiled router serves exactly the endpoints bound in the
    tree: each once, with its verb, at the path "/" of the router reached by
    the mounts of the nodes from the top down to its node, in the same
    order. *)
Theorem router_serves_bound_endpoints (context : C) (tree : RouteTreeNode C) :
  forall (currentPath : string) (mounts : list string),
    servedRoutes mounts (toExpressRouter context currentPath tree)
    = map (fun bound => (bound.1.1, bound.1.2, "/")) (boundEndpoints mounts tree).
Proof.
  induction tree as [self subs res IH] using RouteTreeNode_subRoutes_ind.
  intros currentPath mounts.
  rewrite toExpressRouter_layers, boundEndpoints_node.
  unfold servedRoutes. rewrite flat_map_app, map_app. f_equal.
  - unfold verbOrder. simpl.
    destruct (res !! GET), (res !! PUT), (res !! POST), (res !! PATCH),
      (res !! DELETE); reflexivity.
  - rewrite flat_map_map, map_flat_map. apply flat_map_ext_Forall.
    eapply Forall_impl; [exact IH|]. intros sub Hsub. simpl. apply Hsub.
Qed.

(** X19. The [currentPath] argument of [toExpressRouter] has no effect on
    the router. *)
Theorem toExpressRouter_ignores_currentPath (context : C) (tree : RouteTreeNode C) :
  forall currentPath currentPath' : string,
    toExpressRouter context currentPath tree
    = toExpressRouter context currentPath' tree.
Proof.
  induction tree as [self subs res IH] using RouteTreeNode_subRoutes_ind.
  intros currentPath currentPath'. rewrite !toExpressRouter_layers. f_equal.
  apply Forall_fmap_ext. eapply Forall_impl; [exact IH|].
  intros sub Hsub. simpl. f_equal. apply Hsub.
Qed.

(** X20. An endpoint that declares no schema for a field is handled like
    one that declares the empty schema [{}] for it: the field is still
    parsed, and when the empty schema refuses it the request is answered
    400 and the endpoint handler is not called. *)
Theorem absent_schema_is_empty_schema (endpoint : Endpoint C) (context : C)
    (x : Exchange) :
  let def := endpointDefinition endpoint in
  createHandlerFromEndpoint endpoint context x
  = createHandlerFromEndpoint
      (mkEndpoint (builtByKint endpoint)
         (mkEndpointDefinition
            (Some (default emptyDefinition (requestBody def)))
            (Some (default emptyDefinition (queryParams def)))
            (Some (default emptyDefinition (urlParams def))))
         (handler endpoint))
      context x
  /\ (forall message,
        requestBody def = None ->
        parseSchemaDefinition emptyDefinition (body (req x)) = ParseFailure message ->
        createHandlerFromEndpoint endpoint context x
        = (mkExchange (req x)
             (mkResponse 400%Z (Some ("Bad request: " +:+ message)))
             (calls x ++ [CallParse RequestBody]),
           Normal tt)).
Proof.
  intros def. split; [reflexivity|].
  intros message Hnone Hfail. subst def.
  unfold createHandlerFromEndpoint, parseField, bind, gets, record, modify, ret.
  simpl. rewrite Hnone. simpl. rewrite Hfail. reflexivity.
Qed.

End RouterProperties.

(* ===================================================================== *)
(** * The further properties at work                                      *)
(* ===================================================================== *)

Section ChainRuns.
Import Core.

Lemma chain_extensions_reach_innermost_handler_witness :
  exists (s' : ReqState) (o' : HeapObject),
    buildConfigurableHandler
      (handlerBuilder
         (addAll (imports := sample) Kint_new
            [tracing "auth" (Some (VStr "ann")); tracing "log" None]))
      ok "/users" 1%positive ∅
      (mkReqState {[ 1%positive := ordinary {[ "global" := VNum 1 ]} ]} [])
    = ok "/users" 1%positive ∅ s'
    /\ heap s' !! 1%positive = Some o'
    /\ own o' !! "auth" = Some (VStr "ann")
    /\ own o' !! "global" = Some (VNum 1)
    /\ prototype o' = ObjectPrototype.
Proof.
  assert (Hcontext :
            heap (mkReqState
                    {[ 1%positive := ordinary {[ "global" := VNum 1 ]} ]} [])
              !! 1%positive
            = Some (ordinary {[ "global" := VNum 1 ]})) by reflexivity.
  destruct (chain_extensions_reach_innermost_handler (imports := sample)
              [("auth", Some (VStr "ann")); ("log", None)] ok "/users"
              1%positive ∅
              (mkReqState {[ 1%positive := ordinary {[ "global" := VNum 1 ]} ]} [])
              (ordinary {[ "global" := VNum 1 ]}) Hcontext)
    as (s' & o' & Hrun & Hheap & Hslots & Hother & Hproto & _).
  assert (Hnames : forall n : string,
             n ≠ "auth" -> n ≠ "log" -> n ∉ ["auth"; "log"]).
  { intros n Hauth Hlog Hin.
    repeat (apply elem_of_cons in Hin as [Hin|Hin]; [done|]).
    by apply elem_of_nil in Hin. }
  exists s', o'. split; [exact Hrun|]. split; [exact Hheap|]. split; [|split].
  - apply (Hslots [] "auth" (Some (VStr "ann")) [("log", None)]);
      [reflexivity|discriminate| |reflexivity].
    intros ext' Hin. by apply elem_of_nil in Hin.
  - rewrite Hother; [reflexivity|]. by apply Hnames.
  - rewrite Hproto; [reflexivity|]. by apply Hnames.
Defined.

Lemma middleware_without_next_stops_chain_witness :
  buildConfigurableHandler
    (handlerBuilder
       (addAll (imports := sample)
          (addMiddleware (addMiddleware Kint_new auth1) guard)
          [tracing "log" None]))
    ok "/users" 1%positive ∅ (mkReqState ∅ [])
  = buildConfigurableHandler
      (handlerBuilder
         (addAll (imports := sample)
            (addMiddleware Kint_new guard)
            [tracing "log" None]))
      other "/users" 1%positive ∅ (mkReqState ∅ []).
Proof.
  apply (middleware_without_next_stops_chain (imports := sample)
           guard [("log", None)]
           (addMiddleware Kint_new auth1) Kint_new ok other
           "/users" 1%positive ∅ (mkReqState ∅ [])).
  reflexivity.
Defined.

(** A guard that refuses: the middleware added after it has logged, the
    one added before it and the handler have not. *)
Example refusing_guard_run :
  buildConfigurableHandler
    (handlerBuilder
       (addAll (imports := sample)
          (addMiddleware (addMiddleware Kint_new auth1) guard)
          [tracing "log" None]))
    ok "/users" 1%positive ∅ (mkReqState {[ 1%positive := ordinary ∅ ]} [])
  = (mkReqState {[ 1%positive := ordinary ∅ ]} ["log"; "guard"], Normal 403%Z).
Proof. vm_compute. reflexivity. Qed.

(** What a middleware reads as its config slot: the own property of the
    config under its name, and for a name that the config lacks what
    [Object.prototype] has under it. *)
Example config_slot_examples :
  getProp {[ "auth" := VStr "strict" ]} "auth" = Data (VStr "strict")
  /\ getProp {[ "auth" := VStr "strict" ]} "log" = Data VUndefined
  /\ getProp {[ "auth" := VStr "strict" ]} "constructor" = Inherited "constructor"
  /\ getProp {[ "toString" := VNum 1 ]} "toString" = Data (VNum 1).
Proof. repeat split. Qed.

(** Assignments to ["__proto__"]: an object replaces the prototype, another
    truthy value is dropped, and an object that has the property as its own
    keeps it as a property. *)
Example assign_proto_examples :
  assign "__proto__" (VObj {[ "a" := VNum 1 ]}) (ordinary ∅)
  = mkHeapObject ∅ (PlainPrototype {[ "a" := VNum 1 ]})
  /\ assign "__proto__" (VStr "x") (ordinary ∅) = ordinary ∅
  /\ assign "__proto__" (VStr "x") (ordinary {[ "__proto__" := VNum 0 ]})
     = ordinary {[ "__proto__" := VStr "x" ]}
  /\ assign "auth" (VStr "x") (ordinary ∅) = ordinary {[ "auth" := VStr "x" ]}.
Proof. repeat split. Qed.

End ChainRuns.

Section TreeRuns.
Import Routes.

(** The route directory of the repository's unit test:
    [[test]/POST.ts] and [route-with-param/[param]/[deep]/POST.ts]. *)
Example test_routes_build :
  exists tree,
    fromDirectory
      (loader :=
         modules
           [("[test]/POST", ExValue (sampleEndpoint [] ["test"]));
            ("route-with-param/[param]/[deep]/POST",
             ExValue (sampleEndpoint [] ["param"; "deep"]))])
      [FsDirectory "[test]" [FsFile "POST.ts"];
       FsDirectory "route-with-param"
         [FsDirectory "[param]" [FsDirectory "[deep]" [FsFile "POST.ts"]]]]
    = Normal tree.
Proof.
  match goal with
  | |- exists tree, fromDirectory (loader := ?l) ?d = Normal tree =>
      pose proof (fromDirectory_outcome (loader := l) d) as Hbuild;
      assert (Hfirst : firstThrow (map stepOutcome (steps (loader := l) d))
                       = Normal tt)
        by (vm_compute; reflexivity)
  end.
  rewrite Hfirst in Hbuild. exact Hbuild.
Qed.

Lemma matchUrlParam_bracketed_word_witness :
  matchUrlParam "[user_id]" = Some "user_id".
Proof.
  apply (matchUrlParam_bracketed_word "[user_id]" "user_id").
  split; [reflexivity|]. split; [discriminate|reflexivity].
Defined.

Lemma matchHttpMethod_verb_and_extension_witness :
  matchHttpMethod "DELETE.js" = Some DELETE.
Proof.
  apply (matchHttpMethod_verb_and_extension "DELETE.js" DELETE).
  right. reflexivity.
Defined.

Lemma createSubRoute_inherits_url_params_witness :
  "id" ∈ getAllUrlParams
           (createSubRoute
              (createSubRoute (mkNodeRef "root" false None) "[id]") "posts").
Proof.
  apply (createSubRoute_inherits_url_params
           (createSubRoute (mkNodeRef "root" false None) "[id]") "posts").
  left.
Defined.

Lemma getRootDirectory_is_end_of_path_witness :
  getRootDirectory
    (mkNodeRef "id" true
       (Some (mkNodeRef "users" false (Some (mkNodeRef "root" false None)))))
  = mkNodeRef "root" false None.
Proof.
  destruct (getRootDirectory_is_end_of_path
              (loader := exporting (ExValue (sampleEndpoint [] ["id"])))
              (mkNodeRef "root" false None))
    as (_ & _ & _ & _ & Hfiles).
  apply (Hfiles usersDirectory
           (mkMethodFile ["users"; "[id]"] "POST.ts" "users/[id]/POST.ts"
              (mkNodeRef "id" true
                 (Some (mkNodeRef "users" false
                          (Some (mkNodeRef "root" false None)))))
              POST "users/[id]/POST"
              (Normal (ExValue (sampleEndpoint [] ["id"]))))).
  left.
Defined.

Lemma build_throws_first_failure_witness :
  fromDirectory
    (loader :=
       modules [("GET", ExValue (sampleEndpoint [] [])); ("POST", ExNull)])
    [FsFile "GET.ts"; FsFile "POST.ts";
     FsUnreadable "link" (Error "ENOENT: no such file or directory, stat 'link'");
     FsFile "PUT.ts"]
  = Throw (TypeError "Cannot read properties of null (reading 'builtByKint')").
Proof.
  apply (proj1
           (build_throws_first_failure
              (loader :=
                 modules [("GET", ExValue (sampleEndpoint [] [])); ("POST", ExNull)])
              [FsFile "GET.ts"; FsFile "POST.ts";
               FsUnreadable "link"
                 (Error "ENOENT: no such file or directory, stat 'link'");
               FsFile "PUT.ts"]
              (TypeError "Cannot read properties of null (reading 'builtByKint')"))
           [Load (mkMethodFile [] "GET.ts" "GET.ts" (mkNodeRef "root" false None)
                    GET "GET" (Normal (ExValue (sampleEndpoint [] []))))]
           [Unreadable "link"
              (Error "ENOENT: no such file or directory, stat 'link'");
            Load (mkMethodFile [] "PUT.ts" "PUT.ts" (mkNodeRef "root" false None)
                    PUT "PUT" (Throw (Error "Cannot find module 'PUT'")))]
           (Load (mkMethodFile [] "POST.ts" "POST.ts" (mkNodeRef "root" false None)
                    POST "POST" (Normal ExNull)))).
  - reflexivity.
  - intros g Hg. apply list_elem_of_singleton in Hg. subst g. reflexivity.
  - reflexivity.
Defined.

Lemma build_succeeds_iff_every_file_passes_witness :
  exists tree,
    fromDirectory (loader := exporting (ExValue (sampleEndpoint [] ["id"])))
      (FsFile "notes.md" :: usersDirectory)
    = Normal tree.
Proof.
  apply (build_succeeds_iff_every_file_passes
           (loader := exporting (ExValue (sampleEndpoint [] ["id"])))
           (FsFile "notes.md" :: usersDirectory)).
  split.
  - intros path e Hin. apply list_elem_of_singleton in Hin. discriminate.
  - intros f Hf. apply list_elem_of_singleton in Hf. subst f.
    split; [reflexivity|]. intros k Hk.
    apply list_elem_of_singleton in Hk. subst k. left.
Defined.

End TreeRuns.

Section ShapeRuns.
Import Routes.

Lemma subRoutes_mirror_subdirectories_witness :
  exists node' : NodeFields (imports := sample) unit,
    populateWithDirectoryContents
      (loader := exporting (ExValue (sampleEndpoint [] [])))
      (mkNodeRef "root" false None) "./"
      [FsDirectory "users" []; FsFile "GET.ts"; FsDirectory "[id]" []]
      (mkNodeFields [] ∅)
    = (node', Normal tt)
    /\ map nodeSelf (subRoutes node')
       = [mkNodeRef "users" false (Some (mkNodeRef "root" false None));
          mkNodeRef "id" true (Some (mkNodeRef "root" false None))].
Proof.
  pose proof (populateWithDirectoryContents_outcome
                (loader := exporting (ExValue (sampleEndpoint [] [])))
                (mkNodeRef "root" false None) "./" []
                [FsDirectory "users" []; FsFile "GET.ts"; FsDirectory "[id]" []]
                (mkNodeFields [] ∅)) as Hout.
  destruct (populateWithDirectoryContents _ _ _ _) as [node' [[]|e]] eqn:Hrun;
    [|vm_compute in Hout; discriminate].
  exists node'. split; [reflexivity|].
  destruct (subRoutes_mirror_subdirectories _ _ _ node' Hrun) as [-> _].
  reflexivity.
Defined.

Lemma bound_endpoint_is_required_module_witness :
  exists node' : NodeFields (imports := sample) unit,
    populateWithDirectoryContents
      (loader := modules [("users/GET", ExValue (sampleEndpoint ["first"] []))])
      (mkNodeRef "users" false (Some (mkNodeRef "root" false None))) "users"
      [FsFile "GET.ts"; FsFile "GET.js"; FsFile "POST.md"]
      (mkNodeFields [] ∅)
    = (node', Normal tt)
    /\ resource node' !! GET = Some (sampleEndpoint ["first"] [])
    /\ resource node' !! POST = None.
Proof.
  pose proof (populateWithDirectoryContents_outcome
                (loader :=
                   modules [("users/GET", ExValue (sampleEndpoint ["first"] []))])
                (mkNodeRef "users" false (Some (mkNodeRef "root" false None)))
                "users" ["users"]
                [FsFile "GET.ts"; FsFile "GET.js"; FsFile "POST.md"]
                (mkNodeFields [] ∅)) as Hout.
  destruct (populateWithDirectoryContents _ _ _ _) as [node' [[]|e]] eqn:Hrun;
    [|vm_compute in Hout; discriminate].
  exists node'. split; [reflexivity|].
  destruct (bound_endpoint_is_required_module _ _ _ node' Hrun)
    as (Hbound & Hfree & _).
  split.
  - destruct (Hbound GET) as (endpoint & Hrequire & ->); [left|].
    injection Hrequire as <-. reflexivity.
  - apply Hfree. intros Hin.
    repeat (apply elem_of_cons in Hin as [Hin|Hin]; [discriminate|]).
    by apply elem_of_nil in Hin.
Defined.

Lemma built_tree_is_well_formed_witness :
  exists tree,
    fromDirectory (loader := exporting (ExValue (sampleEndpoint [] ["id"])))
      usersDirectory
    = Normal tree
    /\ wellFormed tree.
Proof.
  pose proof (fromDirectory_outcome
                (loader := exporting (ExValue (sampleEndpoint [] ["id"])))
                usersDirectory) as Hout.
  assert (Hfirst :
            firstThrow
              (map stepOutcome
                 (steps (loader := exporting (ExValue (sampleEndpoint [] ["id"])))
                    usersDirectory))
            = Normal tt) by (vm_compute; reflexivity).
  rewrite Hfirst in Hout. destruct Hout as [tree Hbuild].
  exists tree. split; [exact Hbuild|].
  apply (built_tree_is_well_formed _ tree Hbuild).
Defined.

Lemma declared_url_params_are_mounted_witness :
  exists tree,
    fromDirectory (loader := exporting (ExValue (sampleEndpoint [] ["id"])))
      usersDirectory
    = Normal tree
    /\ forall path verb,
         (path, verb, sampleEndpoint [] ["id"]) ∈ boundEndpoints [] tree ->
         "/:id" ∈ path.
Proof.
  pose proof (fromDirectory_outcome
                (loader := exporting (ExValue (sampleEndpoint [] ["id"])))
                usersDirectory) as Hout.
  assert (Hfirst :
            firstThrow
              (map stepOutcome
                 (steps (loader := exporting (ExValue (sampleEndpoint [] ["id"])))
                    usersDirectory))
            = Normal tt) by (vm_compute; reflexivity).
  rewrite Hfirst in Hout. destruct Hout as [tree Hbuild].
  exists tree. split; [exact Hbuild|]. intros path verb Hin.
  apply (declared_url_params_are_mounted _ tree Hbuild
           path verb (sampleEndpoint [] ["id"]) ["id"] "id");
    [exact Hin|reflexivity|left].
Defined.

Lemma router_holds_verbs_then_mounts_witness :
  toExpressRouter (imports := sample) tt ""
    (mkRouteTreeNode (mkNodeRef "root" false None) [] ∅)
  = [].
Proof.
  apply (router_holds_verbs_then_mounts (imports := sample) tt ""
           (mkNodeRef "root" false None) [] ∅); reflexivity.
Defined.

Lemma absent_schema_is_empty_schema_witness :
  createHandlerFromEndpoint
    (mkEndpoint (imports := sample) (VBool true)
       (mkEndpointDefinition (imports := sample) None None None)
       (fun _ : unit => status_send 200%Z "ok" ;; ret VUndefined))
    tt (incoming VUndefined (VObj ∅) (VObj ∅))
  = (mkExchange (mkRequest VUndefined (VObj ∅) (VObj ∅))
       (mkResponse 400%Z (Some "Bad request: Expected object"))
       [CallParse RequestBody],
     Normal tt).
Proof.
  apply (absent_schema_is_empty_schema (imports := sample)
           (mkEndpoint (imports := sample) (VBool true)
              (mkEndpointDefinition (imports := sample) None None None)
              (fun _ : unit => status_send 200%Z "ok" ;; ret VUndefined))
           tt (incoming VUndefined (VObj ∅) (VObj ∅)));
    reflexivity.
Defined.

End ShapeRuns.
